(** * goblet: the command-line driver [goblet/cli.py]

    A shallow embedding of the click commands of [goblet/cli.py] and of
    the naming convention and reconciliation model they dispatch into,
    with the properties the specification states about them.

    Python values are modelled as follows.
    - [str] is [string] (code points 0..255); command-line and environment
      text never holds a NUL character, so [os.environ] never rejects a
      value for that reason.
    - [Optional[str]] is [option string]; truthiness is [truthy].
    - a [dict] used as a mapping is a [gmap].
    - exceptions are the values of [exn]; a computation returns a [Result].
    - the collaborators imported by the module ([GConfig],
      [get_goblet_app], [get_default_project], the application object,
      [json.loads]) are external calls answered by a handler. *)

From Stdlib Require Import ZArith Ascii String DecimalString.
From stdpp Require Import gmap strings list.

Set Warnings "-register-all".

Local Open Scope Z_scope.
Local Open Scope string_scope.
Local Open Scope list_scope.

(** ** Python values *)

(** JSON documents as [json.loads] returns them.  A float is kept as its
    literal text: no arithmetic is ever done on configuration values. *)
Inductive json : Type :=
| JNull
| JBool (b : bool)
| JInt (z : Z)
| JFloat (literal : string)
| JStr (s : string)
| JArr (items : list json)
| JObj (members : list (string * json)).

(** The exceptions that can cross the commands. *)
Inductive exn : Type :=
| FileNotFoundError (filename : option string)
| TypeError (msg : string)
| ValueError (msg : string)
| ConflictError (resource : string)
| OtherError (name msg : string).

Inductive Result (A : Type) : Type :=
| Return (a : A)
| Raised (e : exn).
Arguments Return {A} a.
Arguments Raised {A} e.

(** [bool(x)] for [x : Optional[str]]: [None] and the empty string are falsy. *)
Definition truthy (x : option string) : bool :=
  match x with
  | Some s => negb (String.eqb s "")
  | None => false
  end.

(** [x or d] for [x : Optional[str]] and a string [d]. *)
Definition or_else (x : option string) (d : string) : string :=
  match x with
  | Some s => if String.eqb s "" then d else s
  | None => d
  end.

(** [str(x)] inside an f-string, for [x : Optional[str]]. *)
Definition fmt (x : option string) : string :=
  match x with
  | Some s => s
  | None => "None"
  end.

(** *** [int(s)] on a string

    Surrounding white space is dropped (tab to carriage return and space,
    and the two spaces above 127: NEL and the no-break space), one sign is
    accepted, and the digits may be grouped by single underscores.  A
    literal of more than [max_str_digits] digits is refused: the
    interpreter's default limit, which [cli.py] does not change. *)

Definition is_space (c : ascii) : bool :=
  let n := nat_of_ascii c in
  ((9 <=? n)%nat && (n <=? 13)%nat) || (n =? 32)%nat
  || (n =? 133)%nat || (n =? 160)%nat.

Definition digit_val (c : ascii) : option Z :=
  let n := nat_of_ascii c in
  if ((48 <=? n)%nat && (n <=? 57)%nat) then Some (Z.of_nat n - 48) else None.

Fixpoint lstrip (s : string) : string :=
  match s with
  | String c s' => if is_space c then lstrip s' else s
  | EmptyString => EmptyString
  end.

(** [all_space s]: only white space is left. *)
Fixpoint all_space (s : string) : bool :=
  match s with
  | String c s' => is_space c && all_space s'
  | EmptyString => true
  end.

(** [sys.int_info.default_max_str_digits]. *)
Definition max_str_digits : Z := 4300.

(** The run of digits and underscores at the head of [s]: the value read,
    the number of digits, and what follows the run.  [underscore] tells
    that the character before was an underscore; a doubled underscore and
    an underscore at the end of the run are refused. *)
Fixpoint int_digits (underscore : bool) (acc count : Z) (s : string)
  : option (Z * Z * string) :=
  match s with
  | String c s' =>
      match digit_val c with
      | Some d => int_digits false (acc * 10 + d) (count + 1) s'
      | None =>
          if Ascii.eqb c "_" then
            if underscore then None else int_digits true acc count s'
          else if underscore then None else Some (acc, count, s)
      end
  | EmptyString => if underscore then None else Some (acc, count, s)
  end.

(** What [int] makes of a string. *)
Inductive int_result : Type :=
| IntValue (z : Z)
| InvalidLiteral
| ExceedsLimit (digits : Z).

(** The literal after the sign: it may not start with an underscore; the
    limit is checked once the run of digits has been read, before what
    follows the run is looked at. *)
Definition int_unsigned (s : string) : int_result :=
  match s with
  | String c _ =>
      if Ascii.eqb c "_" then InvalidLiteral
      else
        match int_digits false 0 0 s with
        | Some (z, count, rest) =>
            if (max_str_digits <? count)%Z then ExceedsLimit count
            else if (count =? 0)%Z then InvalidLiteral
            else if all_space rest then IntValue z
            else InvalidLiteral
        | None => InvalidLiteral
        end
  | EmptyString => InvalidLiteral
  end.

Definition int_negate (r : int_result) : int_result :=
  match r with
  | IntValue z => IntValue (- z)
  | other => other
  end.

Definition int_of_string (s : string) : int_result :=
  match lstrip s with
  | String c s' =>
      if Ascii.eqb c "-" then int_negate (int_unsigned s')
      else if Ascii.eqb c "+" then int_unsigned s'
      else int_unsigned (String c s')
  | EmptyString => InvalidLiteral
  end.

(** The value of [int(s)], when there is one. *)
Definition py_int (s : string) : option Z :=
  match int_of_string s with
  | IntValue z => Some z
  | _ => None
  end.

(** Only decimal digits. *)
Fixpoint all_digits (s : string) : bool :=
  match s with
  | String c s' => bool_decide (is_Some (digit_val c)) && all_digits s'
  | EmptyString => true
  end.

(** *** [repr(s)] of a string, as the message of [int] shows it

    The quote is ['] unless the string holds ['] and no double quote; the
    quote and the backslash are escaped, tab, line feed and carriage return
    are written [\t], [\n] and [\r], and the other characters that are not
    printable (below 32, 127 to 160, and the soft hyphen 173) as [\xhh]. *)

Definition double_quote : ascii := "034"%char.

Fixpoint contains_char (c : ascii) (s : string) : bool :=
  match s with
  | String c' s' => Ascii.eqb c c' || contains_char c s'
  | EmptyString => false
  end.

Definition hex_digit (n : nat) : ascii :=
  default "0"%char (String.get n "0123456789abcdef").

Definition repr_char (quote c : ascii) : string :=
  let n := nat_of_ascii c in
  if Ascii.eqb c quote || Ascii.eqb c "\" then String "\" (String c "")
  else if (n =? 9)%nat then "\t"
  else if (n =? 10)%nat then "\n"
  else if (n =? 13)%nat then "\r"
  else if (n <? 32)%nat || ((127 <=? n)%nat && (n <=? 160)%nat) || (n =? 173)%nat
       then String "\" (String "x" (String (hex_digit (n / 16))
                                      (String (hex_digit (n mod 16)) "")))
  else String c "".

Fixpoint repr_chars (quote : ascii) (s : string) : string :=
  match s with
  | String c s' => repr_char quote c +:+ repr_chars quote s'
  | EmptyString => ""
  end.

Definition py_repr (s : string) : string :=
  let quote := if contains_char "'" s && negb (contains_char double_quote s)
               then double_quote else "'"%char in
  String quote (repr_chars quote s) +:+ String quote "".

(** The message of the [ValueError] of [int(s)]: the literal is shown by
    the first 200 characters of its [repr]. *)
Definition int_error (s : string) : string :=
  match int_of_string s with
  | ExceedsLimit count =>
      "Exceeds the limit (" +:+ NilZero.string_of_int (Z.to_int max_str_digits)
      +:+ " digits) for integer string conversion: value has "
      +:+ NilZero.string_of_int (Z.to_int count)
      +:+ " digits; use sys.set_int_max_str_digits() to increase the limit"
  | _ => "invalid literal for int() with base 10: " +:+ substring 0 200 (py_repr s)
  end.

(** ** The configuration object and the application object *)

(** One entry of the [stages] mapping: the per-stage overrides. *)
Abbreviation StageOverride := (gmap string json).

(** [GConfig]: the attributes [cli.py] reads and writes, and the rest of
    [config.json] in [others]. *)
Record GConfig : Type := {
  main_file : option string;
  stages : option (gmap string StageOverride);
  others : gmap string json
}.

Definition set_stages (c : GConfig) (m : gmap string StageOverride) : GConfig :=
  {| main_file := main_file c; stages := Some m; others := others c |}.

(** [bool(config.stages)]: [None] and the empty dict are falsy. *)
Definition stages_truthy (c : GConfig) : bool :=
  match stages c with
  | Some m => negb (bool_decide (m = ∅))
  | None => false
  end.

(** [stage in config.stages], evaluated only when [config.stages] is truthy. *)
Definition stage_in (stage : string) (c : GConfig) : bool :=
  match stages c with
  | Some m => bool_decide (is_Some (m !! stage))
  | None => false
  end.

(** The resource kinds of the handler registry. *)
Inductive kind : Type :=
| KFunction | KRoute | KSubscription | KSchedule | KStorage | KJob.

#[global] Instance kind_eq_dec : EqDecision kind.
Proof. solve_decision. Defined.

Definition all_kinds : list kind :=
  [KFunction; KRoute; KSubscription; KSchedule; KStorage; KJob].

(** A declared resource: its kind and base name (the desired spec plays no
    part in naming or diffing). *)
Record DeclaredResource : Type := { dkind : kind; base : string }.

(** A remote resource: its kind and remote identifier. *)
Record RemoteResource : Type := { rkind : kind; rid : string }.

#[global] Instance RemoteResource_eq_dec : EqDecision RemoteResource.
Proof. solve_decision. Defined.

(** The application object returned by [get_goblet_app]. *)
Record App : Type := {
  function_name : string;
  declared : list DeclaredResource
}.

(** ** Naming convention *)

Definition sep : ascii := "-"%char.

(** Modelled from the spec: the naming convention [remoteName] of section
    4.2 (the module that names remote resources is not in [cli.py]):
    [remoteName(baseName, stage) = stage ? "{baseName}-{stage}" : baseName],
    with the optional stage of the data model. *)
Definition remoteName (baseName : string) (stage : option string) : string :=
  match stage with
  | Some s => baseName +:+ String sep s
  | None => baseName
  end.

(** [contains_sep s]: the separator occurs in [s]. *)
Fixpoint contains_sep (s : string) : bool :=
  match s with
  | String c s' => Ascii.eqb c sep || contains_sep s'
  | EmptyString => false
  end.

(** Modelled from the spec: the inverse mapping [parse] of section 4.2.
    Base names hold no separator, so the base name is what precedes the
    first separator and the stage is what follows it; an identifier
    without separator has no stage. *)
Fixpoint parse (id : string) : string * option string :=
  match id with
  | String c rest =>
      if Ascii.eqb c sep then (EmptyString, Some rest)
      else let '(b, s) := parse rest in (String c b, s)
  | EmptyString => (EmptyString, None)
  end.

(** ** Reconciliation *)

(** Modelled from the spec: [listRemote(stage)] of section 4.3 for one
    handler kind, over the provider's resource set [R]: the resources of
    that kind whose identifier matches the naming convention for the
    stage. *)
Definition listRemote (R : list RemoteResource) (k : kind) (stage : option string)
  : list RemoteResource :=
  filter (λ r, rkind r = k ∧ (parse (rid r)).2 = stage) R.

(** Modelled from the spec: step 3 of section 4.5, the declared set of
    (kind, base name) pairs. *)
Definition declared_set (D : list DeclaredResource) : list (kind * string) :=
  (λ d, (dkind d, base d)) <$> D.

(** Modelled from the spec: steps 1, 2 and 4 of section 4.5.  Every kind is
    listed for the active stage, each identifier is parsed, and a listed
    resource is an orphan when its (kind, base name) is not declared. *)
Definition orphans (D : list DeclaredResource) (R : list RemoteResource)
    (stage : option string) : list RemoteResource :=
  filter (λ r, (rkind r, (parse (rid r)).1) ∉ declared_set D)
         (all_kinds ≫= λ k, listRemote R k stage).

(** The image of the declared set under the naming convention. *)
Definition image (D : list DeclaredResource) (stage : option string)
  : list RemoteResource :=
  (λ d, {| rkind := dkind d; rid := remoteName (base d) stage |}) <$> D.


(** The remote resources that parse to the stage. *)
Definition listed (R : list RemoteResource) (stage : option string)
  : list RemoteResource :=
  filter (λ r, (parse (rid r)).2 = stage) R.

(** ** The world the commands run in *)

(** The calls of the provider API, as the reconciler issues them. *)
Inductive api_call : Type :=
| ApiList (k : kind) (stage : option string)
| ApiCreate (r : RemoteResource)
| ApiDelete (r : RemoteResource).

Definition mutating (c : api_call) : bool :=
  match c with
  | ApiList _ _ => false
  | ApiCreate _ | ApiDelete _ => true
  end.

(** [os.environ], what [click.echo] has printed, the provider's resource
    set with the history of API calls made on it, and whatever else the
    collaborators keep ([ext]: the file system, the gcloud settings). *)
Record World (X : Type) : Type := {
  environ : gmap string string;
  stdout : list string;
  remote : list RemoteResource;
  api_calls : list api_call;
  ext : X
}.
Arguments environ {X} w.
Arguments stdout {X} w.
Arguments remote {X} w.
Arguments api_calls {X} w.
Arguments ext {X} w.

Definition set_environ {X} (w : World X) (k v : string) : World X :=
  {| environ := <[k := v]> (environ w); stdout := stdout w; remote := remote w;
     api_calls := api_calls w; ext := ext w |}.

Definition add_stdout {X} (w : World X) (msg : string) : World X :=
  {| environ := environ w; stdout := stdout w ++ [msg]; remote := remote w;
     api_calls := api_calls w; ext := ext w |}.

Definition set_remote {X} (w : World X) (R : list RemoteResource)
    (calls : list api_call) : World X :=
  {| environ := environ w; stdout := stdout w; remote := R;
     api_calls := api_calls w ++ calls; ext := ext w |}.

(** The value [deploy] hands to [app.deploy] as [config]: the option as
    given when it is falsy, the parsed document otherwise. *)
Inductive config_value : Type :=
| ConfigRaw (s : option string)
| ConfigJson (j : json).

(** What the commands call, in the order they call it. *)
Inductive call : Type :=
| get_default_project
| GConfig_new
| GConfig_write (config : GConfig)
| json_loads (s : string)
| get_goblet_app (main_file : string)
| app_deploy (app : App) (skip_function only_function : bool)
    (config : config_value) (force : bool)
| app_destroy (app : App) (all : bool)
| app_sync (app : App) (dryrun : bool)
| app_package (app : App)
| app_call (app : App) (name : string) (task_id : Z)
| click_echo (msg : string)
| environ_setitem (key value : string).

(** The type of the value a call returns. *)
Definition ans (c : call) : Type :=
  match c with
  | get_default_project => option string
  | GConfig_new => GConfig
  | json_loads _ => json
  | get_goblet_app _ => App
  | _ => unit
  end.

(** The calls on the loaded application object. *)
Definition is_app_method (c : call) : bool :=
  match c with
  | app_deploy _ _ _ _ _ | app_destroy _ _ | app_sync _ _
  | app_package _ | app_call _ _ _ => true
  | _ => false
  end.

(** The collaborators: each call returns or raises, and may change the
    world. *)
Definition handler (X : Type) : Type :=
  ∀ c : call, World X → Result (ans c) * World X.

(** The state of a run: the world and the calls made so far. *)
Record State (X : Type) : Type := { world : World X; trace : list call }.
Arguments world {X} s.
Arguments trace {X} s.

Definition M (X A : Type) : Type := State X → Result A * State X.

Definition ret {X A} (a : A) : M X A := λ st, (Return a, st).

Definition raise {X A} (e : exn) : M X A := λ st, (Raised e, st).

Definition bind {X A B} (m : M X A) (k : A → M X B) : M X B :=
  λ st, match m st with
        | (Return a, st') => k a st'
        | (Raised e, st') => (Raised e, st')
        end.

#[global] Instance M_ret {X} : MRet (M X) := λ A a, ret a.
#[global] Instance M_bind {X} : MBind (M X) := λ A B k m, bind m k.

(** [if b: body]. *)
Definition when {X} (b : bool) (body : M X unit) : M X unit :=
  if b then body else ret tt.

(** [try: body except FileNotFoundError as not_found: on_missing]. *)
Definition try_except {X A} (body : M X A) (on_missing : option string → M X A)
  : M X A :=
  λ st, match body st with
        | (Raised (FileNotFoundError filename), st') => on_missing filename st'
        | out => out
        end.

(** A call to a collaborator. *)
Definition extern {X} (h : handler X) (c : call) : M X (ans c) :=
  λ st, let '(r, w) := h c (world st) in
        (r, {| world := w; trace := trace st ++ [c] |}).

(** [click.echo(msg)]. *)
Definition echo {X} (msg : string) : M X unit :=
  λ st, (Return tt, {| world := add_stdout (world st) msg;
                       trace := trace st ++ [click_echo msg] |}).

(** [os.environ[key] = value]: a value that is not a [str] is refused. *)
Definition setenv {X} (key : string) (value : option string) : M X unit :=
  match value with
  | Some v =>
      λ st, (Return tt, {| world := set_environ (world st) key v;
                           trace := trace st ++ [environ_setitem key v] |})
  | None => raise (TypeError "str expected, not NoneType")
  end.

(** [int(s)]. *)
Definition int {X} (s : string) : M X Z :=
  match py_int s with
  | Some z => ret z
  | None => raise (ValueError (int_error s))
  end.

Definition run {X A} (m : M X A) (w : World X) : Result A * State X :=
  m {| world := w; trace := [] |}.

(** ** The commands of [cli.py] *)

Definition project_not_found : string :=
  "Project not found. Set --project flag or add to gcloud by using gcloud config set project PROJECT".

Definition missing (filename : option string) : string :=
  "Missing " +:+ fmt filename +:+
  ". Make sure you are in the correct directory and this file exists".

Section Commands.
Context {X : Type} (h : handler X).

(** [get_goblet_app(GConfig().main_file or "main.py")]. *)
Definition load_app : M X App :=
  config ← extern h GConfig_new;
  extern h (get_goblet_app (or_else (main_file config) "main.py")).

(** The head shared by [deploy], [destroy] and [sync]: lines 52-60. *)
Definition set_project (project : option string) (location : string)
    (stage : option string) : M X unit :=
  _project ← (if truthy project then ret project
               else extern h get_default_project);
  when (negb (truthy _project)) (echo project_not_found);;
  setenv "GOOGLE_PROJECT" _project;;
  setenv "GOOGLE_LOCATION" (Some location);;
  when (truthy stage) (setenv "STAGE" stage).

Definition deploy (project : option string) (location : string)
    (stage : option string) (skip_function only_function : bool)
    (config : option string) (force : bool) : M X unit :=
  try_except
    (set_project project location stage;;
     config ← (if truthy config
                then j ← extern h (json_loads (or_else config ""));
                     ret (ConfigJson j)
                else ret (ConfigRaw config));
     app ← load_app;
     extern h (app_deploy app skip_function only_function config false))
    (λ filename, echo (missing filename)).

Definition destroy (project : option string) (location : string)
    (stage : option string) (all : bool) : M X unit :=
  try_except
    (set_project project location stage;;
     app ← load_app;
     extern h (app_destroy app all))
    (λ filename, echo (missing filename)).

Definition sync (project : option string) (location : string)
    (stage : option string) (dryrun : bool) : M X unit :=
  try_except
    (set_project project location stage;;
     app ← load_app;
     extern h (app_sync app dryrun))
    (λ filename, echo (missing filename)).

Definition package (stage : option string) : M X unit :=
  try_except
    (when (truthy stage) (setenv "STAGE" stage);;
     app ← load_app;
     extern h (app_package app))
    (λ filename, echo (missing filename)).

(** [stage create]. *)
Definition create (stage : string) : M X unit :=
  config ← extern h GConfig_new;
  if stages_truthy config && stage_in stage config then
    echo ("stage " +:+ stage +:+ " already exists")
  else
    app ← load_app;
    let function_name' := function_name app +:+ "-" +:+ stage in
    let entry : StageOverride := {[ "function_name" := JStr function_name' ]} in
    let config' :=
      if negb (stages_truthy config) then set_stages config {[ stage := entry ]}
      else set_stages config (<[stage := entry]> (default ∅ (stages config))) in
    extern h (GConfig_write config');;
    echo ("stage " +:+ stage +:+ " created in config.json with function name "
          +:+ function_name').

(** [job run]. *)
Definition run_job (name task_id : string) : M X unit :=
  setenv "CLOUD_RUN_TASK_INDEX" (Some task_id);;
  try_except
    (app ← load_app;
     index ← int task_id;
     extern h (app_call app name index))
    (λ filename, echo (missing filename)).

(** The value click gives a parameter: the command line, then a
    non-empty environment variable, then the default. *)
Definition click_value (given : option string) (envvar : string)
    (dflt : option string) (env : gmap string string) : option string :=
  match given with
  | Some v => Some v
  | None =>
      match env !! envvar with
      | Some v => if String.eqb v "" then dflt else Some v
      | None => dflt
      end
  end.

(** [job run <name> [<task_id>]] as click invokes it:
    [@click.argument("task_id", envvar="CLOUD_RUN_TASK_INDEX", default="1")]. *)
Definition job_run (name : string) (task_id : option string) : M X unit :=
  λ st,
    let t := click_value task_id "CLOUD_RUN_TASK_INDEX" (Some "1")
               (environ (world st)) in
    run_job name (default "" t) st.
End Commands.

(** ** The reconciler behind [app.sync] *)

(** The active stage reaches the application through [os.environ]. *)
Definition active_stage {X} (w : World X) : option string :=
  environ w !! "STAGE".

(** Modelled from the spec: the Reconciler of section 4.5, which is what
    [app.sync(dryrun)] runs (the application class is not in [cli.py]).
    It lists every kind for the active stage and computes the orphans;
    under dry-run it reports them, otherwise it deletes each of them.
    The provider is taken to answer every call. *)
Definition reconcile {X} (app : App) (dryrun : bool) (w : World X)
  : Result unit * World X :=
  let stage := active_stage w in
  let lists := (λ k, ApiList k stage) <$> all_kinds in
  let orphan := orphans (declared app) (remote w) stage in
  if dryrun then
    (Return tt, foldl add_stdout (set_remote w (remote w) lists) (rid <$> orphan))
  else
    (Return tt, set_remote w (list_difference (remote w) orphan)
                  (lists ++ (ApiDelete <$> orphan))).

(** ** Scripted collaborators

    A family of concrete collaborators, used to run the commands on
    concrete inputs. *)
Record script : Type := {
  gcloud_project : option string;          (* what [get_default_project()] returns *)
  config_json : GConfig;                   (* what [GConfig()] reads *)
  entry_point : string → Result App;       (* what importing the entry file gives *)
  conflict : bool                          (* a resource to create already exists *)
}.

(** [app.deploy] follows VALIDATE of section 4.4: an existing conflicting
    resource raises [ConflictError] unless [force] is set; [app.sync] is
    the reconciler; the other calls return. *)
Definition scripted (s : script) : handler unit :=
  λ c, match c as c0 return World unit → Result (ans c0) * World unit with
       | get_default_project => λ w, (Return (gcloud_project s), w)
       | GConfig_new => λ w, (Return (config_json s), w)
       | GConfig_write _ => λ w, (Return tt, w)
       | json_loads _ => λ w, (Return (JObj []), w)
       | get_goblet_app f => λ w, (entry_point s f, w)
       | app_deploy app _ _ _ force =>
           λ w, (if conflict s && negb force
                 then Raised (ConflictError (function_name app))
                 else Return tt, w)
       | app_destroy _ _ => λ w, (Return tt, w)
       | app_sync app dryrun => reconcile app dryrun
       | app_package _ => λ w, (Return tt, w)
       | app_call _ _ _ => λ w, (Return tt, w)
       | click_echo _ => λ w, (Return tt, w)
       | environ_setitem _ _ => λ w, (Return tt, w)
       end.

Definition fn_app : App :=
  {| function_name := "fn"; declared := [ {| dkind := KFunction; base := "fn" |} ] |}.

Definition empty_config : GConfig :=
  {| main_file := None; stages := None; others := ∅ |}.

Definition dev_config : GConfig :=
  {| main_file := None;
     stages := Some {[ "dev" := {[ "function_name" := JStr "fn-dev" ]} ]};
     others := ∅ |}.

Definition world0 : World unit :=
  {| environ := ∅; stdout := []; remote := []; api_calls := []; ext := tt |}.

(** Everything in place: a project, the entry file, no conflict. *)
Definition ready (config : GConfig) : script :=
  {| gcloud_project := Some "proj"; config_json := config;
     entry_point := λ _, Return fn_app; conflict := false |}.

(** The entry file is missing: as the loader does, the exception names the
    file by its absolute path, here in the directory [/srv/app]. *)
Definition absolute (f : string) : string := "/srv/app/" +:+ f.

Definition no_entry_file : script :=
  {| gcloud_project := Some "proj"; config_json := empty_config;
     entry_point := λ f, Raised (FileNotFoundError (Some (absolute f)));
     conflict := false |}.

(** No project anywhere. *)
Definition no_project : script :=
  {| gcloud_project := None; config_json := empty_config;
     entry_point := λ _, Return fn_app; conflict := false |}.

(** The function to deploy already exists remotely. *)
Definition already_deployed : script :=
  {| gcloud_project := Some "proj"; config_json := empty_config;
     entry_point := λ _, Return fn_app; conflict := true |}.

(** A provider that holds the deployed function of stage [dev], a function
    that is no longer declared, and a job of stage [prod]. *)
Definition drifted : World unit :=
  {| environ := ∅; stdout := [];
     remote := [ {| rkind := KFunction; rid := "fn-dev" |};
                 {| rkind := KFunction; rid := "old-dev" |};
                 {| rkind := KJob; rid := "fn-prod" |} ];
     api_calls := []; ext := tt |}.

(** A shell in which [CLOUD_RUN_TASK_INDEX] is set to 5. *)
Definition task_five : World unit :=
  {| environ := {[ "CLOUD_RUN_TASK_INDEX" := "5" ]}; stdout := []; remote := [];
     api_calls := []; ext := tt |}.

(** ** Reading a trace *)

Definition is_load (c : call) : bool :=
  match c with
  | get_goblet_app _ => true
  | _ => false
  end.

(** The calls made from the first [get_goblet_app] on. *)
Fixpoint from_load (tr : list call) : list call :=
  match tr with
  | c :: tr' => if is_load c then c :: tr' else from_load tr'
  | [] => []
  end.

(** The [force] arguments [app.deploy] was called with. *)
Definition forces (tr : list call) : list bool :=
  omap (λ c, match c with
             | app_deploy _ _ _ _ force => Some force
             | _ => None
             end) tr.

(** The [dryrun] arguments [app.sync] was called with. *)
Definition dryruns (tr : list call) : list bool :=
  omap (λ c, match c with
             | app_sync _ dryrun => Some dryrun
             | _ => None
             end) tr.

(** The configurations handed to [config.write()]. *)
Definition writes (tr : list call) : list GConfig :=
  omap (λ c, match c with
             | GConfig_write config => Some config
             | _ => None
             end) tr.


(** ** Invariants of a run *)

(** [m] keeps the invariant [I] of the state, whether it returns or raises. *)
Definition preserves {X A} (I : State X → Prop) (m : M X A) : Prop :=
  ∀ st, I st → I (m st).2.

(** [get_goblet_app] has not been called. *)
Definition no_load {X} (st : State X) : Prop := from_load (trace st) = [].

(** The provider is as it was in [w]: same resources, and only read-only
    calls since; and [app.sync] was only called with [dryrun] set. *)
Definition untouched {X} (w : World X) (st : State X) : Prop :=
  remote (world st) = remote w
  ∧ (∃ calls, api_calls (world st) = api_calls w ++ calls
              ∧ Forall (λ c, mutating c = false) calls)
  ∧ Forall (λ d, d = true) (dryruns (trace st)).

(** ** Triples

    [hoare P m Q]: from a state in [P], [m] ends in a state and with a
    result (returned or raised) in [Q]. *)
Definition hoare {X A} (P : State X → Prop) (m : M X A)
    (Q : Result A → State X → Prop) : Prop :=
  ∀ st, P st → Q (m st).1 (m st).2.

(** The calls on the application object, in order. *)
Definition app_calls (tr : list call) : list call :=
  filter (λ c, is_app_method c = true) tr.

(** The application has not been called. *)
Definition no_app {X} (st : State X) : Prop := app_calls (trace st) = [].

(** The application is called at most once, and then by a call in [own]. *)
Definition calls_app_once (own : call → Prop) (tr : list call) : Prop :=
  app_calls tr = [] ∨ ∃ c, app_calls tr = [c] ∧ own c.

(** The assignments to [os.environ], in order. *)
Definition exports (tr : list call) : list (string * string) :=
  omap (λ c, match c with
             | environ_setitem key value => Some (key, value)
             | _ => None
             end) tr.

(** What [deploy], [destroy] and [sync] export for the project [p]. *)
Definition exported (p location : string) (stage : option string)
  : list (string * string) :=
  [("GOOGLE_PROJECT", p); ("GOOGLE_LOCATION", location)]
  ++ (if truthy stage then [("STAGE", default "" stage)] else []).

(** The messages printed, in order. *)
Definition echoes (tr : list call) : list string :=
  omap (λ c, match c with
             | click_echo msg => Some msg
             | _ => None
             end) tr.

(** The calls to [get_default_project]. *)
Definition asks_gcloud (c : call) : bool :=
  match c with
  | get_default_project => true
  | _ => false
  end.

(** The assignments to [os.environ]. *)
Definition is_export (c : call) : bool :=
  match c with
  | environ_setitem _ _ => true
  | _ => false
  end.

(** Nothing is exported once [get_goblet_app] has been called, and when it
    has been called, what was exported before is in [expected]. *)
Definition exports_then_load (expected : list (string * string) → Prop)
    (tr : list call) : Prop :=
  exports (from_load tr) = [] ∧ (from_load tr ≠ [] → expected (exports tr)).

(** Before the load, with [E] exported. *)
Definition before_load {X} (E : list (string * string)) (st : State X) : Prop :=
  no_load st ∧ exports (trace st) = E.

(** After the load, with [E] exported, all of it before the load. *)
Definition after_load {X} (E : list (string * string)) (st : State X) : Prop :=
  from_load (trace st) ≠ [] ∧ exports (from_load (trace st)) = []
  ∧ exports (trace st) = E.

(** The warning about the project, and asking gcloud for one. *)
Definition warns_or_asks (c : call) : bool :=
  match c with
  | get_default_project => true
  | click_echo msg => String.eqb msg project_not_found
  | _ => false
  end.

(** ** Collaborators with a configuration file

    [GConfig()] reads the file kept in [ext] and [config.write()] replaces
    it; the entry file defines [app]; the other calls return. *)
Definition set_ext {X} (w : World X) (x : X) : World X :=
  {| environ := environ w; stdout := stdout w; remote := remote w;
     api_calls := api_calls w; ext := x |}.

Definition filed (app : App) : handler GConfig :=
  λ c, match c as c0 return World GConfig → Result (ans c0) * World GConfig with
       | get_default_project => λ w, (Return None, w)
       | GConfig_new => λ w, (Return (ext w), w)
       | GConfig_write config => λ w, (Return tt, set_ext w config)
       | json_loads _ => λ w, (Return (JObj []), w)
       | get_goblet_app _ => λ w, (Return app, w)
       | app_deploy _ _ _ _ _ => λ w, (Return tt, w)
       | app_destroy _ _ => λ w, (Return tt, w)
       | app_sync _ _ => λ w, (Return tt, w)
       | app_package _ => λ w, (Return tt, w)
       | app_call _ _ _ => λ w, (Return tt, w)
       | click_echo _ => λ w, (Return tt, w)
       | environ_setitem _ _ => λ w, (Return tt, w)
       end.

(** A directory whose [config.json] is [config]. *)
Definition directory (config : GConfig) : World GConfig :=
  {| environ := ∅; stdout := []; remote := []; api_calls := []; ext := config |}.

(** The entry [stage create] records for a stage. *)
Definition stage_entry (app : App) (stage : string) : StageOverride :=
  {[ "function_name" := JStr (function_name app +:+ "-" +:+ stage) ]}.

(** Collaborators whose [json.loads] and whose application raise [e]: the
    configuration and the entry file are in place. *)
Definition failing (e : exn) : handler unit :=
  λ c, match c as c0 return World unit → Result (ans c0) * World unit with
       | get_default_project => λ w, (Return (Some "proj"), w)
       | GConfig_new => λ w, (Return empty_config, w)
       | GConfig_write _ => λ w, (Return tt, w)
       | json_loads _ => λ w, (Raised e, w)
       | get_goblet_app _ => λ w, (Return fn_app, w)
       | app_deploy _ _ _ _ _ => λ w, (Raised e, w)
       | app_destroy _ _ => λ w, (Raised e, w)
       | app_sync _ _ => λ w, (Raised e, w)
       | app_package _ => λ w, (Raised e, w)
       | app_call _ _ _ => λ w, (Raised e, w)
       | click_echo _ => λ w, (Return tt, w)
       | environ_setitem _ _ => λ w, (Return tt, w)
       end.

(** Collaborators whose application raises [e], and whose [json.loads]
    returns the empty object. *)
Definition app_failing (e : exn) : handler unit :=
  λ c, match c as c0 return World unit → Result (ans c0) * World unit with
       | json_loads _ => λ w, (Return (JObj []), w)
       | c0 => failing e c0
       end.

(** ** The commands with further collaborators: [openapi] and [local]

    [openapi] and [local] also call the route handler of the application,
    [get_g_dir], [open], [requests.post] and [subprocess.check_output].
    Their runs log the calls of both kinds, in the order they are made. *)
Inductive io_call : Type :=
| generate_openapi_spec (app : App) (cloudfunction : string)
| get_g_dir
| read_file (path : string)           (* [with open(path, "r") as f: f.read()] *)
| requests_post (url : string) (headers : list (string * string)) (data : string)
| write_file (path data : string)     (* [with open(path, "w") as f: f.write(data)] *)
| check_output (argv : list string).

(** The type of the value a call returns: for [requests.post], the text of
    the response. *)
Definition io_ans (c : io_call) : Type :=
  match c with
  | get_g_dir | read_file _ | requests_post _ _ _ => string
  | _ => unit
  end.

Definition io_handler (X : Type) : Type :=
  ∀ c : io_call, World X → Result (io_ans c) * World X.

Record Session (X : Type) : Type := { now : World X; log : list (call + io_call) }.
Arguments now {X} s.
Arguments log {X} s.

Definition IO (X A : Type) : Type := Session X → Result A * Session X.

Definition io_ret {X A} (a : A) : IO X A := λ s, (Return a, s).

Definition io_raise {X A} (e : exn) : IO X A := λ s, (Raised e, s).

Definition io_bind {X A B} (m : IO X A) (k : A → IO X B) : IO X B :=
  λ s, match m s with
       | (Return a, s') => k a s'
       | (Raised e, s') => (Raised e, s')
       end.

#[global] Instance IO_ret {X} : MRet (IO X) := λ A a, io_ret a.
#[global] Instance IO_bind {X} : MBind (IO X) := λ A B k m, io_bind m k.

(** A piece of code that only makes calls of the first kind. *)
Definition lift {X A} (m : M X A) : IO X A :=
  λ s, let '(r, st) := m {| world := now s; trace := [] |} in
       (r, {| now := world st; log := log s ++ (inl <$> trace st) |}).

(** A call to one of the further collaborators. *)
Definition io {X} (g : io_handler X) (c : io_call) : IO X (io_ans c) :=
  λ s, let '(r, w) := g c (now s) in
       (r, {| now := w; log := log s ++ [inr c] |}).

(** [try: body except <class> as e: handler], for the exceptions of the
    class, [catches]. *)
Definition try_catch {X A} (body : IO X A) (catches : exn → bool)
    (handler : exn → IO X A) : IO X A :=
  λ s, match body s with
       | (Raised e, s') => if catches e then handler e s' else (Raised e, s')
       | out => out
       end.

Definition is_FileNotFoundError (e : exn) : bool :=
  match e with
  | FileNotFoundError _ => true
  | _ => false
  end.

(** [not_found.filename]. *)
Definition filename_of (e : exn) : option string :=
  match e with
  | FileNotFoundError filename => filename
  | _ => None
  end.

(** [subprocess.CalledProcessError], an exception class without a
    constructor of its own in [exn]. *)
Definition is_CalledProcessError (e : exn) : bool :=
  match e with
  | OtherError name _ => String.eqb name "CalledProcessError"
  | _ => false
  end.

(** Reading a local variable: one that no assignment has bound raises
    [UnboundLocalError]. *)
Definition local_variable {X A} (name : string) (value : option A) : IO X A :=
  match value with
  | Some a => io_ret a
  | None => io_raise (OtherError "UnboundLocalError"
                        ("local variable '" +:+ name +:+ "' referenced before assignment"))
  end.

Definition run_io {X A} (m : IO X A) (w : World X) : Result A * Session X :=
  m {| now := w; log := [] |}.

Definition converter : string := "https://converter.swagger.io/api/convert".

Definition yaml_headers : list (string * string) :=
  [("accept", "application/yaml"); ("Content-Type", "application/yaml")].

Definition incorrect_argument : string :=
  "Incorrect argument. Make sure you set the local param in your Goblet class and that it matches the arg used in goblet local".

Section FurtherCommands.
Context {X : Type} (h : handler X) (g : io_handler X).

(** [openapi].  The [try] block has two statements: [app] is bound as soon
    as [get_goblet_app] has returned, so it is bound in the code after the
    block when the first statement has returned, also when the second one
    raised [FileNotFoundError]; it is unbound when the first one raised it.
    The f-strings call [get_g_dir()] before they read [app]. *)
Definition openapi (cloudfunction : string) (stage version : option string)
  : IO X unit :=
  lift (when (truthy stage) (setenv "STAGE" stage));;
  app ← try_catch
          (app ← lift (load_app h);
           try_catch
             (io g (generate_openapi_spec app cloudfunction);; mret (Some app))
             is_FileNotFoundError
             (λ not_found, lift (echo (missing (filename_of not_found)));;
                           mret (Some app)))
          is_FileNotFoundError
          (λ not_found, lift (echo (missing (filename_of not_found)));; mret None);
  if truthy version then
    dir ← io g get_g_dir;
    app1 ← local_variable "app" app;
    data ← io g (read_file (dir +:+ "/" +:+ function_name app1 +:+ "_openapi_spec.yml"));
    text ← io g (requests_post converter yaml_headers data);
    dir ← io g get_g_dir;
    app2 ← local_variable "app" app;
    io g (write_file (dir +:+ "/" +:+ function_name app2 +:+ "_openapi_spec_3.yml") text)
  else mret tt.

(** [local]. *)
Definition local (local_arg : string) (stage : option string) : IO X unit :=
  try_catch
    (lift (when (truthy stage) (setenv "STAGE" stage));;
     config ← lift (extern h GConfig_new);
     let source := or_else (main_file config) "main.py" in
     io g (check_output ["functions-framework"; "--target=" +:+ local_arg;
                         "--debug"; "--source=" +:+ source]))
    is_CalledProcessError
    (λ _, lift (echo incorrect_argument)).
End FurtherCommands.

(** The calls of each kind in a log. *)
Definition core_calls (l : list (call + io_call)) : list call :=
  omap (λ c, match c with inl c => Some c | inr _ => None end) l.

Definition io_calls (l : list (call + io_call)) : list io_call :=
  omap (λ c, match c with inl _ => None | inr c => Some c end) l.

(** Concrete further collaborators: the generated files are kept in
    [.goblet], the specification on disk is [swagger], the converter
    answers with [convert], and the route handler and the functions
    framework end as given. *)
Definition tools (generated framework : Result unit) (swagger : string)
    (convert : string → string) : io_handler unit :=
  λ c, match c as c0 return World unit → Result (io_ans c0) * World unit with
       | generate_openapi_spec _ _ => λ w, (generated, w)
       | get_g_dir => λ w, (Return ".goblet", w)
       | read_file _ => λ w, (Return swagger, w)
       | requests_post _ _ data => λ w, (Return (convert data), w)
       | write_file _ _ => λ w, (Return tt, w)
       | check_output _ => λ w, (framework, w)
       end.

(** * Properties *)

(** ** Strings and the naming convention *)



(** [parse] inverts [remoteName] on base names without separator. *)
Lemma parse_remoteName (b : string) (stage : option string) :
  contains_sep b = false → parse (remoteName b stage) = (b, stage).
Proof.
  intros Hb. induction b as [|c b IH]; simpl in *.
  - by destruct stage.
  - apply orb_false_iff in Hb as [Hc Hb]. specialize (IH Hb).
    destruct stage as [s|]; simpl in *; rewrite Hc; by rewrite IH.
Qed.







(** ** The commands *)


(** ** Rules for invariants *)

Section Invariants.
Context {X : Type} (h : handler X) (I : State X → Prop).

Lemma preserves_ret {A} (a : A) : preserves I (ret (X:=X) a).
Proof. by intros st. Qed.

Lemma preserves_raise {A} (e : exn) : preserves I (raise (X:=X) (A:=A) e).
Proof. by intros st. Qed.

Lemma preserves_bind {A B} (m : M X A) (k : A → M X B) :
  preserves I m → (∀ a, preserves I (k a)) → preserves I (m ≫= k).
Proof.
  intros Hm Hk st Hst. unfold mbind, M_bind, bind.
  specialize (Hm st Hst). destruct (m st) as [[a|e] st']; simpl in *; [|done].
  by apply Hk.
Qed.

Lemma preserves_try_except {A} (body : M X A) (on_missing : option string → M X A) :
  preserves I body → (∀ fn, preserves I (on_missing fn)) →
  preserves I (try_except body on_missing).
Proof.
  intros Hb Hh st Hst. unfold try_except.
  specialize (Hb st Hst). destruct (body st) as [[a|[]] st']; simpl in *; try done.
  by apply Hh.
Qed.

Lemma preserves_when (b : bool) (body : M X unit) :
  preserves I body → preserves I (when b body).
Proof. destruct b; [done | intros _; apply preserves_ret]. Qed.

Lemma preserves_int (s : string) : preserves I (int (X:=X) s).
Proof. unfold int. destruct (py_int s); [apply preserves_ret | apply preserves_raise]. Qed.

Lemma preserves_echo (msg : string) :
  (∀ st, I st → I {| world := add_stdout (world st) msg;
                     trace := trace st ++ [click_echo msg] |}) →
  preserves I (echo msg).
Proof. intros H st Hst. by apply H. Qed.

Lemma preserves_setenv (key : string) (value : option string) :
  (∀ v st, I st → I {| world := set_environ (world st) key v;
                       trace := trace st ++ [environ_setitem key v] |}) →
  preserves I (setenv key value).
Proof. intros H st Hst. destruct value; simpl; [by apply H | done]. Qed.

Lemma preserves_extern (c : call) :
  (∀ st, I st → I {| world := (h c (world st)).2; trace := trace st ++ [c] |}) →
  preserves I (extern h c).
Proof.
  intros H st Hst. unfold extern. specialize (H st Hst).
  by destruct (h c (world st)).
Qed.
End Invariants.

(** ** Calls before and after the application is loaded *)

Lemma from_load_snoc (tr : list call) (c : call) :
  from_load (tr ++ [c]) =
  match from_load tr with
  | [] => if is_load c then [c] else []
  | l => l ++ [c]
  end.
Proof.
  induction tr as [|c' tr IH]; simpl; [by destruct (is_load c)|].
  by destruct (is_load c').
Qed.

Lemma no_load_snoc {X} (st : State X) (w : World X) (c : call) :
  no_load st → is_load c = false → no_load {| world := w; trace := trace st ++ [c] |}.
Proof. unfold no_load. simpl. intros H Hc. by rewrite from_load_snoc, H, Hc. Qed.

Section Loading.
Context {X : Type} (h : handler X).

Local Ltac unfold_cli :=
  unfold run, deploy, destroy, sync, package, create, run_job, set_project, load_app,
    try_except, when, int, setenv, echo, extern, mbind, M_bind, bind, ret, raise.

(** Use the answer [H] of a collaborator [f] to the pending call. *)
Local Ltac answers f H :=
  lazymatch goal with
  | |- context [f ?w] =>
      let E := fresh "E" in
      let r := fresh "r" in
      let w' := fresh "w" in
      pose proof (H w) as E; destruct (f w) as [r w']; simpl in E; subst r; simpl
  end.


Local Ltac strings :=
  repeat match goal with
    | |- context [String.eqb ?x ""] => destruct (String.eqb x "") eqn:?; simpl in *
    end.

End Loading.

(** ** [stage create] *)

Section StageCreate.
Context {X : Type} (h : handler X).

(** The test [config.stages and stage in config.stages] is whether the
    stage is a key of the mapping. *)
Lemma stage_test (stage : string) (config : GConfig) :
  stages_truthy config && stage_in stage config
  = bool_decide (is_Some (default ∅ (stages config) !! stage)).
Proof.
  unfold stages_truthy, stage_in. destruct (stages config) as [m|]; simpl.
  - destruct (decide (m = ∅)) as [->|Hm].
    + rewrite bool_decide_eq_true_2 by done. simpl. symmetry.
      apply bool_decide_eq_false_2. rewrite lookup_empty. by intros [? ?].
    + by rewrite (bool_decide_eq_false_2 _ Hm).
  - symmetry. apply bool_decide_eq_false_2. rewrite lookup_empty. by intros [? ?].
Qed.

(** What [create] hands to [config.write()] for a stage that is not in the
    mapping: the configuration it read, with the mapping extended by the
    entry of the new stage. *)
Lemma create_fresh (stage : string) (w : World X) (config : GConfig) (app : App) :
  (∀ w', (h GConfig_new w').1 = Return config) →
  (∀ f w', (h (get_goblet_app f) w').1 = Return app) →
  default ∅ (stages config) !! stage = None →
  ∃ rest,
    trace (run (create h stage) w).2
    = [GConfig_new; GConfig_new; get_goblet_app (or_else (main_file config) "main.py");
       GConfig_write
         (set_stages config
            (<[stage := {[ "function_name" := JStr (function_name app +:+ "-" +:+ stage) ]}]>
               (default ∅ (stages config))))] ++ rest
    ∧ writes rest = [].
Proof.
  intros Hcfg Happ Hfresh.
  assert (stages_truthy config = false → default ∅ (stages config) = ∅) as Hempty.
  { unfold stages_truthy. destruct (stages config) as [m|]; simpl; [|done].
    intros Hm. apply negb_false_iff, bool_decide_eq_true_1 in Hm. done. }
  set (entry := {[ "function_name" := JStr (function_name app +:+ "-" +:+ stage) ]}).
  set (target := set_stages config (<[stage := entry]> (default ∅ (stages config)))).
  assert ((if negb (stages_truthy config)
           then set_stages config {[stage := entry]}
           else set_stages config (<[stage := entry]> (default ∅ (stages config))))
          = target) as Hwritten.
  { unfold target. destruct (stages_truthy config); simpl; [done|].
    by rewrite Hempty, insert_empty. }
  unfold run, create, load_app, extern, echo, mbind, M_bind, bind.
  cbn [world trace].
  pose proof (Hcfg w) as H1. destruct (h GConfig_new w) as [r1 w1].
  cbn [fst] in H1. subst r1.
  rewrite stage_test, Hfresh. rewrite bool_decide_eq_false_2 by (by intros [? ?]).
  cbn [world trace].
  pose proof (Hcfg w1) as H2. destruct (h GConfig_new w1) as [r2 w2].
  cbn [fst] in H2. subst r2. cbn [world trace].
  pose proof (Happ (or_else (main_file config) "main.py") w2) as H3.
  destruct (h (get_goblet_app _) w2) as [r3 w3]. cbn [fst] in H3. subst r3.
  cbn [world trace]. fold entry. rewrite Hwritten.
  destruct (h (GConfig_write target) w3) as [[[]|e] w4]; simpl;
    eexists; (split; [reflexivity|done]).
Qed.

(** C2: [stage create] on a stage name that is already in the stages
    mapping writes nothing (no [config.write()], so the mapping stays as
    it is), tells the user that the stage exists, and returns. *)
Theorem create_existing (stage : string) (w : World X) (config : GConfig)
    (m : gmap string StageOverride) :
  (h GConfig_new w).1 = Return config →
  stages config = Some m →
  is_Some (m !! stage) →
  let out := run (create h stage) w in
  out.1 = Return tt
  ∧ trace out.2 = [GConfig_new; click_echo ("stage " +:+ stage +:+ " already exists")]
  ∧ writes (trace out.2) = []
  ∧ stdout (world out.2)
    = stdout (h GConfig_new w).2 ++ ["stage " +:+ stage +:+ " already exists"].
Proof.
  intros Hc Hm Hs.
  unfold run, create, load_app, extern, echo, mbind, M_bind, bind. simpl.
  destruct (h GConfig_new w) as [r w1]. simpl in Hc. subst r. simpl.
  rewrite stage_test, Hm. simpl. by rewrite (bool_decide_eq_true_2 _ Hs).
Qed.

(** C9: [stage create] for a stage name that is not in the mapping writes
    the configuration with the mapping extended by the single entry
    [stage ↦ {"function_name": appName-stage}]: the other stages are as
    they were, and with no mapping (or an empty one) before, the new
    mapping holds that entry alone.  Nothing else of the configuration
    changes, and it is written once. *)
Theorem create_new_stage (stage : string) (w : World X) (config : GConfig) (app : App) :
  (∀ w', (h GConfig_new w').1 = Return config) →
  (∀ f w', (h (get_goblet_app f) w').1 = Return app) →
  default ∅ (stages config) !! stage = None →
  let entry : StageOverride :=
    {[ "function_name" := JStr (function_name app +:+ "-" +:+ stage) ]} in
  ∃ config' m',
    writes (trace (run (create h stage) w).2) = [config']
    ∧ stages config' = Some m'
    ∧ m' = <[stage := entry]> (default ∅ (stages config))
    ∧ m' !! stage = Some entry
    ∧ (∀ s, s ≠ stage → m' !! s = default ∅ (stages config) !! s)
    ∧ dom m' = {[stage]} ∪ dom (default ∅ (stages config))
    ∧ (default ∅ (stages config) = ∅ → m' = {[stage := entry]})
    ∧ main_file config' = main_file config
    ∧ others config' = others config.
Proof.
  intros Hcfg Happ Hfresh entry.
  destruct (create_fresh stage w config app Hcfg Happ Hfresh) as (rest & Htr & Hrest).
  eexists _, _. rewrite Htr. unfold writes in *. rewrite omap_app, Hrest. simpl.
  split_and!; try reflexivity.
  - apply lookup_insert_eq.
  - intros s Hs. by apply lookup_insert_ne.
  - apply dom_insert_L.
  - intros ->. apply insert_empty.
Qed.
End StageCreate.

(** ** The naming convention and the orphan set *)

(** C5: on base names without the separator [-], the naming convention is
    injective on (base name, stage) pairs, and [parse] recovers the pair
    from the name. *)
Theorem remoteName_injective (b1 b2 : string) (s1 s2 : option string) :
  contains_sep b1 = false →
  contains_sep b2 = false →
  ((b1, s1) ≠ (b2, s2) → remoteName b1 s1 ≠ remoteName b2 s2)
  ∧ parse (remoteName b1 s1) = (b1, s1)
  ∧ parse (remoteName b2 s2) = (b2, s2).
Proof.
  intros H1 H2. split_and!; [|by apply parse_remoteName..].
  intros Hne Heq. apply Hne.
  rewrite <-(parse_remoteName b1 s1 H1), <-(parse_remoteName b2 s2 H2).
  by rewrite Heq.
Qed.





(** Without the condition on base names no reconciler can do what C7 asks:
    [fn-x-dev] is built by the convention for stage [dev] and for stage
    [x-dev], so it would have to be an orphan of [dev], as an undeclared
    resource named for [dev], and not to be one, as a resource named for
    another stage. *)
Remark ambiguous_names_defeat_any_reconciler
    (orphans' : list DeclaredResource → list RemoteResource → option string
                → list RemoteResource) :
  ¬ ((∀ D R stage r, r ∈ R → (∃ b, rid r = remoteName b stage) → r ∉ image D stage →
                     r ∈ orphans' D R stage)
     ∧ (∀ D R stage stage' r, (∃ b, rid r = remoteName b stage') → stage' ≠ stage →
                              r ∉ orphans' D R stage)).
Proof.
  intros [Hall Hnone].
  set (r := {| rkind := KFunction; rid := "fn-x-dev" |}).
  apply (Hnone [] [r] (Some "dev") (Some "x-dev") r).
  - by exists "fn".
  - done.
  - apply Hall.
    + apply list_elem_of_here.
    + by exists "fn-x".
    + apply not_elem_of_nil.
Qed.


(** ** [deploy], [destroy], [sync] and [job run] *)

Section Deployment.
Context {X : Type} (h : handler X).

(** C4: the naming convention gives [b-s] when a stage [s] is given and
    [b] alone when none is; and the function name that [stage create]
    records for a new stage is the application's function name followed by
    [-] and the stage, which is its name under the convention. *)
Theorem naming_convention (b s stage : string) (w : World X) (config : GConfig)
    (app : App) :
  (∀ w', (h GConfig_new w').1 = Return config) →
  (∀ f w', (h (get_goblet_app f) w').1 = Return app) →
  default ∅ (stages config) !! stage = None →
  remoteName b (Some s) = b +:+ "-" +:+ s
  ∧ remoteName b None = b
  ∧ ∃ config' m',
      writes (trace (run (create h stage) w).2) = [config']
      ∧ stages config' = Some m'
      ∧ m' !! stage
        = Some {[ "function_name" := JStr (function_name app +:+ "-" +:+ stage) ]}
      ∧ function_name app +:+ "-" +:+ stage = remoteName (function_name app) (Some stage).
Proof.
  intros Hcfg Happ Hfresh. split_and!; [done..|].
  destruct (create_fresh h stage w config app Hcfg Happ Hfresh) as (rest & Htr & Hrest).
  eexists _, _. rewrite Htr. unfold writes in *. rewrite omap_app, Hrest. simpl.
  split_and!; [reflexivity..| |done]. apply lookup_insert_eq.
Qed.

(** [app.deploy] is never called with [force] set. *)
Lemma deploy_never_forces (project : option string) (location : string)
    (stage : option string) (skip_function only_function : bool)
    (config : option string) (force : bool) :
  preserves (λ st : State X, Forall (λ f, f = false) (forces (trace st)))
    (deploy h project location stage skip_function only_function config force).
Proof.
  assert (∀ (st : State X) (w' : World X) (c : call),
            Forall (λ f, f = false) (forces (trace st)) →
            (∀ a sk on cf f, c = app_deploy a sk on cf f → f = false) →
            Forall (λ f, f = false)
              (forces (trace {| world := w'; trace := trace st ++ [c] |}))) as Hsnoc.
  { intros st w' c Hst Hc. unfold forces in *. simpl. rewrite omap_app.
    apply Forall_app. split; [done|]. destruct c; simpl; try done.
    repeat constructor. eauto. }
  unfold deploy, set_project, load_app.
  apply preserves_try_except;
    [|intros fn; apply preserves_echo; intros; by apply Hsnoc].
  repeat first
    [ apply preserves_bind; [|intros ?]
    | apply preserves_when
    | apply preserves_ret
    | apply preserves_echo; intros; by apply Hsnoc
    | apply preserves_setenv; intros; by apply Hsnoc
    | lazymatch goal with
      | |- preserves ?I (extern _ ?c) => apply (preserves_extern h I c)
      end; intros; apply Hsnoc; [done|]; intros; by simplify_eq
    | match goal with |- context [truthy ?x] => destruct (truthy x) end ].
Qed.

(** C1: [deploy] does not hand the user's [force] to the deployment: the
    run is the same whatever the flag, [app.deploy] only ever gets
    [force=False], and so [deploy --force] on a resource that exists
    already still fails with [ConflictError]. *)
Theorem deploy_drops_force (project : option string) (location : string)
    (stage : option string) (skip_function only_function : bool)
    (config : option string) (force : bool) (w : World X) :
  run (deploy h project location stage skip_function only_function config force) w
  = run (deploy h project location stage skip_function only_function config false) w
  ∧ Forall (λ f, f = false)
      (forces (trace (run (deploy h project location stage skip_function
                             only_function config force) w).2))
  ∧ (run (deploy (scripted already_deployed) (Some "proj") "us-central1" (Some "dev")
            false false None true) world0).1
    = Raised (ConflictError "fn").
Proof.
  split_and!; [done| |by vm_compute].
  by apply deploy_never_forces.
Qed.

(** C3: with no project from the flag or the environment ([project] falsy)
    and none from [get_default_project()], the three commands print the
    warning and then stop with a [TypeError], raised by the assignment of
    [None] to [os.environ]; the application is not loaded. *)
Theorem unresolved_project_raises (project : option string) (location : string)
    (stage : option string) (skip_function only_function : bool)
    (config : option string) (force all dryrun : bool) (w : World X) :
  truthy project = false →
  (h get_default_project w).1 = Return None →
  let failed : Result unit * State X :=
    (Raised (TypeError "str expected, not NoneType"),
     {| world := add_stdout (h get_default_project w).2 project_not_found;
        trace := [get_default_project; click_echo project_not_found] |}) in
  run (deploy h project location stage skip_function only_function config force) w = failed
  ∧ run (destroy h project location stage all) w = failed
  ∧ run (sync h project location stage dryrun) w = failed.
Proof.
  intros Hp Hd.
  unfold run, deploy, destroy, sync, set_project, try_except, when, setenv, echo, extern,
    mbind, M_bind, bind, ret, raise.
  rewrite Hp. simpl.
  destruct (h get_default_project w) as [r w1]. simpl in Hd. subst r. done.
Qed.

(** Whatever the task id and whatever the collaborators answer, the first
    thing [job run] does is to set [CLOUD_RUN_TASK_INDEX] to the task id. *)
Lemma run_job_sets_env_first (name task_id : string) (w : World X) :
  ∃ rest, trace (run (run_job h name task_id) w).2
          = environ_setitem "CLOUD_RUN_TASK_INDEX" task_id :: rest.
Proof.
  set (first := environ_setitem "CLOUD_RUN_TASK_INDEX" task_id).
  set (I := λ st : State X, ∃ rest, trace st = first :: rest).
  assert (∀ (st : State X) (w' : World X) (c : call),
            I st → I {| world := w'; trace := trace st ++ [c] |}) as Hsnoc.
  { intros st w' c [rest Hrest]. exists (rest ++ [c]). simpl. by rewrite Hrest. }
  unfold run, run_job, mbind at 1, M_bind at 1, bind at 1. simpl. fold first.
  assert (I {| world := set_environ w "CLOUD_RUN_TASK_INDEX" task_id; trace := [first] |})
    as Hfirst by (by exists []).
  revert Hfirst. generalize {| world := set_environ w "CLOUD_RUN_TASK_INDEX" task_id;
                               trace := [first] |}.
  apply (preserves_try_except I).
  - unfold load_app.
    apply preserves_bind.
    { apply preserves_bind.
      - apply (preserves_extern h I GConfig_new). intros. by apply Hsnoc.
      - intros c. apply (preserves_extern h I (get_goblet_app _)). intros. by apply Hsnoc. }
    intros app. apply preserves_bind; [apply preserves_int|].
    intros index. apply (preserves_extern h I (app_call _ _ _)). intros. by apply Hsnoc.
  - intros fn. apply preserves_echo. intros. by apply Hsnoc.
Qed.

(** C10, with the environment variable of the argument taken into account:
    [job run] sets [CLOUD_RUN_TASK_INDEX] to the task id before it loads
    the application, and calls the application with the name and the
    integer the task id denotes.  The task id is the argument when there
    is one; without argument and with the variable unset it is ["1"], so
    the application gets task index 1. *)
Theorem job_run_task_index (name : string) (task_id : option string) (w : World X)
    (app : App) (index : Z) :
  let t := default "" (click_value task_id "CLOUD_RUN_TASK_INDEX" (Some "1") (environ w)) in
  (∀ w', ∃ config, (h GConfig_new w').1 = Return config) →
  (∀ f w', (h (get_goblet_app f) w').1 = Return app) →
  py_int t = Some index →
  (∃ f rest, trace (run (job_run h name task_id) w).2
             = [environ_setitem "CLOUD_RUN_TASK_INDEX" t; GConfig_new; get_goblet_app f;
                app_call app name index] ++ rest)
  ∧ (∀ v, task_id = Some v → t = v)
  ∧ (∀ v, task_id = None → environ w !! "CLOUD_RUN_TASK_INDEX" = Some v → v ≠ "" → t = v)
  ∧ (task_id = None → environ w !! "CLOUD_RUN_TASK_INDEX" = None → t = "1" ∧ index = 1).
Proof.
  intros t Hcfg Happ Hint. split_and!.
  - unfold run, job_run, run_job, load_app, try_except, int, setenv, echo, extern,
      mbind, M_bind, bind, ret, raise. cbn [world trace]. fold t. simpl.
    destruct (Hcfg (set_environ w "CLOUD_RUN_TASK_INDEX" t)) as [config H1].
    destruct (h GConfig_new _) as [r1 w1]. simpl in H1. subst r1. simpl.
    pose proof (Happ (or_else (main_file config) "main.py") w1) as H2.
    destruct (h (get_goblet_app _) w1) as [r2 w2]. simpl in H2. subst r2. simpl.
    rewrite Hint. simpl.
    destruct (h (app_call app name index) w2) as [[[]|[]] w3]; simpl;
      eexists _, _; reflexivity.
  - by intros v ->.
  - intros v -> Henv Hv. unfold t. simpl. rewrite Henv.
    destruct (String.eqb v "") eqn:E; [by apply String.eqb_eq in E|done].
  - intros -> Henv. unfold t in *. simpl in *. rewrite Henv in *. simpl in *.
    split; [done|]. vm_compute in Hint. by simplify_eq.
Qed.
End Deployment.

(** ** [sync --dryrun] *)

Lemma remote_foldl_add_stdout {X} (msgs : list string) (w : World X) :
  remote (foldl add_stdout w msgs) = remote w
  ∧ api_calls (foldl add_stdout w msgs) = api_calls w.
Proof.
  revert w. induction msgs as [|m msgs IH]; intros w; simpl; [done|].
  by destruct (IH (add_stdout w m)) as [-> ->].
Qed.

(** Under dry-run the reconciler only lists. *)
Lemma reconcile_dryrun {X} (app : App) (w : World X) :
  (reconcile app true w).1 = Return tt
  ∧ remote (reconcile app true w).2 = remote w
  ∧ ∃ calls, api_calls (reconcile app true w).2 = api_calls w ++ calls
             ∧ Forall (λ c, mutating c = false) calls.
Proof.
  unfold reconcile. cbn [fst snd].
  set (lists := (λ k, ApiList k (active_stage w)) <$> all_kinds).
  destruct (remote_foldl_add_stdout
              (rid <$> orphans (declared app) (remote w) (active_stage w))
              (set_remote w (remote w) lists)) as [HR Hcalls].
  split_and!; [done|by rewrite HR|]. exists lists. split; [by rewrite Hcalls|].
  apply Forall_fmap, Forall_forall. done.
Qed.

Section DryRun.
Context {X : Type} (h : handler X).
Hypothesis Hsync : ∀ app dryrun w, h (app_sync app dryrun) w = reconcile app dryrun w.
Hypothesis Hframe : ∀ c w, is_app_method c = false →
  remote (h c w).2 = remote w ∧ api_calls (h c w).2 = api_calls w.

(** A call that leaves the provider alone keeps it untouched. *)
Lemma untouched_snoc (w0 : World X) (st : State X) (w' : World X) (c : call) :
  untouched w0 st →
  remote w' = remote (world st) →
  api_calls w' = api_calls (world st) →
  (∀ app dryrun, c = app_sync app dryrun → dryrun = true) →
  untouched w0 {| world := w'; trace := trace st ++ [c] |}.
Proof.
  intros (HR & (calls & Hcalls & Hro) & Hdry) HR' Hcalls' Hc.
  unfold untouched. simpl. split_and!.
  - congruence.
  - exists calls. split; [congruence|done].
  - unfold dryruns in *. rewrite omap_app. apply Forall_app. split; [done|].
    destruct c; simpl; try done. repeat constructor. eauto.
Qed.

Lemma untouched_extern (w0 : World X) (c : call) :
  is_app_method c = false → preserves (untouched w0) (extern h c).
Proof.
  intros Hc. apply preserves_extern. intros st Hst.
  destruct (Hframe c (world st) Hc) as [HR Hcalls].
  apply untouched_snoc; [done..|]. intros app d ->. done.
Qed.

Lemma untouched_echo (w0 : World X) (msg : string) :
  preserves (untouched w0) (echo msg).
Proof. apply preserves_echo. intros st Hst. by apply untouched_snoc. Qed.

Lemma untouched_setenv (w0 : World X) (key : string) (value : option string) :
  preserves (untouched w0) (setenv key value).
Proof. apply preserves_setenv. intros v st Hst. by apply untouched_snoc. Qed.

Lemma untouched_sync (w0 : World X) (app : App) :
  preserves (untouched w0) (extern h (app_sync app true)).
Proof.
  apply (preserves_extern h _ (app_sync app true)).
  intros st (HR & (calls & Hcalls & Hro) & Hdry). rewrite Hsync.
  destruct (reconcile_dryrun app (world st)) as (_ & HR' & calls' & Hcalls' & Hro').
  unfold untouched. cbn [world trace]. split_and!.
  - etrans; [exact HR'|done].
  - exists (calls ++ calls'). split; [|by apply Forall_app].
    etrans; [exact Hcalls'|]. by rewrite Hcalls, (assoc_L (++)).
  - unfold dryruns in *. rewrite omap_app. apply Forall_app. split; [done|].
    simpl. by repeat constructor.
Qed.

(** C6: [sync --dryrun] hands the flag to the reconciler as it is, the
    reconciler then only lists, and nothing else the command calls touches
    the provider: after the command the remote resource set is what it
    was, and every API call made is a read-only one. *)
Theorem sync_dryrun_read_only (project : option string) (location : string)
    (stage : option string) (w : World X) :
  untouched w (run (sync h project location stage true) w).2.
Proof.
  assert (untouched w {| world := w; trace := [] |}) as Hw.
  { unfold untouched. simpl. split_and!; [done| |done].
    exists []. by rewrite (right_id_L [] (++)). }
  unfold run. revert Hw. generalize {| world := w; trace := @nil call |}.
  change (preserves (untouched w) (sync h project location stage true)).
  unfold sync, set_project, load_app.
  apply preserves_try_except; [|intros fn; apply untouched_echo].
  apply preserves_bind.
  { apply preserves_bind.
    { destruct (truthy project); [apply preserves_ret|].
      by apply (untouched_extern w get_default_project). }
    intros p. apply preserves_bind; [apply preserves_when, untouched_echo|]. intros _.
    apply preserves_bind; [apply untouched_setenv|]. intros _.
    apply preserves_bind; [apply untouched_setenv|]. intros _.
    apply preserves_when, untouched_setenv. }
  intros _. apply preserves_bind.
  { apply preserves_bind; [by apply (untouched_extern w GConfig_new)|].
    intros config. by apply (untouched_extern w (get_goblet_app _)). }
  intros app. apply untouched_sync.
Qed.
End DryRun.

(** ** The theorems at concrete inputs *)

Lemma scripted_frame (s : script) (c : call) (w : World unit) :
  is_app_method c = false →
  remote (scripted s c w).2 = remote w ∧ api_calls (scripted s c w).2 = api_calls w.
Proof. destruct c; simpl; intros; done. Defined.

(** [stage create dev] when [dev] is a stage already. *)
Lemma create_existing_witness :
  let out := run (create (scripted (ready dev_config)) "dev") world0 in
  out.1 = Return tt
  ∧ trace out.2 = [GConfig_new; click_echo "stage dev already exists"]
  ∧ writes (trace out.2) = []
  ∧ stdout (world out.2) = ["stage dev already exists"].
Proof.
  apply (create_existing (scripted (ready dev_config)) "dev" world0 dev_config
           {[ "dev" := {[ "function_name" := JStr "fn-dev" ]} ]}).
  - reflexivity.
  - reflexivity.
  - rewrite lookup_singleton_eq. by eexists.
Defined.

(** [stage create prod] when only [dev] is a stage. *)
Lemma create_new_stage_witness :
  ∃ config' m',
    writes (trace (run (create (scripted (ready dev_config)) "prod") world0).2) = [config']
    ∧ stages config' = Some m'
    ∧ m' !! "prod" = Some {[ "function_name" := JStr "fn-prod" ]}
    ∧ m' !! "dev" = Some {[ "function_name" := JStr "fn-dev" ]}.
Proof.
  destruct (create_new_stage (scripted (ready dev_config)) "prod" world0 dev_config fn_app)
    as (config' & m' & Hw & Hs & Hm & Hnew & Hold & _).
  - reflexivity.
  - reflexivity.
  - by apply lookup_singleton_ne.
  - exists config', m'. split_and!; [done..|].
    rewrite Hold by done. apply lookup_singleton_eq.
Defined.

(** The names of [fn] for the stages [dev] and for no stage, and the first
    stage of an application without stages. *)
Lemma naming_convention_witness :
  remoteName "fn" (Some "dev") = "fn-dev"
  ∧ remoteName "fn" None = "fn"
  ∧ ∃ config' m',
      writes (trace (run (create (scripted (ready empty_config)) "dev") world0).2) = [config']
      ∧ stages config' = Some m'
      ∧ m' !! "dev" = Some {[ "function_name" := JStr "fn-dev" ]}
      ∧ "fn-dev" = remoteName "fn" (Some "dev").
Proof.
  apply (naming_convention (scripted (ready empty_config)) "fn" "dev" "dev" world0
           empty_config fn_app).
  - reflexivity.
  - reflexivity.
  - apply lookup_empty.
Defined.

(** [fn] for [dev] and [fn] for [prod] have different names. *)
Lemma remoteName_injective_witness :
  (("fn", Some "dev") ≠ ("fn", Some "prod") →
   remoteName "fn" (Some "dev") ≠ remoteName "fn" (Some "prod"))
  ∧ parse (remoteName "fn" (Some "dev")) = ("fn", Some "dev")
  ∧ parse (remoteName "fn" (Some "prod")) = ("fn", Some "prod").
Proof.
  apply (remoteName_injective "fn" "fn" (Some "dev") (Some "prod")); reflexivity.
Defined.

(** [sync --dryrun -s dev] on the drifted provider. *)
Lemma sync_dryrun_read_only_witness :
  untouched drifted
    (run (sync (scripted (ready empty_config)) None "us-central1" (Some "dev") true)
       drifted).2.
Proof.
  apply (sync_dryrun_read_only (scripted (ready empty_config))).
  - reflexivity.
  - apply scripted_frame.
Defined.


(** The three commands with no project anywhere. *)
Lemma unresolved_project_raises_witness :
  let failed : Result unit * State unit :=
    (Raised (TypeError "str expected, not NoneType"),
     {| world := add_stdout world0 project_not_found;
        trace := [get_default_project; click_echo project_not_found] |}) in
  run (deploy (scripted no_project) None "us-central1" (Some "dev") false false None false)
    world0 = failed
  ∧ run (destroy (scripted no_project) None "us-central1" (Some "dev") false) world0 = failed
  ∧ run (sync (scripted no_project) None "us-central1" (Some "dev") false) world0 = failed.
Proof.
  apply (unresolved_project_raises (scripted no_project)); reflexivity.
Defined.

(** [job run job] with no task id anywhere: task index 1. *)
Lemma job_run_task_index_witness :
  ∃ f rest,
    trace (run (job_run (scripted (ready empty_config)) "job" None) world0).2
    = [environ_setitem "CLOUD_RUN_TASK_INDEX" "1"; GConfig_new; get_goblet_app f;
       app_call fn_app "job" 1] ++ rest.
Proof.
  apply (job_run_task_index (scripted (ready empty_config)) "job" None world0 fn_app 1).
  - intros w'. by eexists.
  - reflexivity.
  - reflexivity.
Defined.

(** C10 without that proviso does not hold: with [CLOUD_RUN_TASK_INDEX=5]
    in the environment and no task id on the command line, the application
    gets task index 5 and not 1. *)
Lemma job_run_default_overridden :
  let out := run (job_run (scripted (ready empty_config)) "job" None) task_five in
  trace out.2
  = [environ_setitem "CLOUD_RUN_TASK_INDEX" "5"; GConfig_new; get_goblet_app "main.py";
     app_call fn_app "job" 5]
  ∧ app_call fn_app "job" 1 ∉ trace out.2.
Proof.
  assert (trace (run (job_run (scripted (ready empty_config)) "job" None) task_five).2
          = [environ_setitem "CLOUD_RUN_TASK_INDEX" "5"; GConfig_new;
             get_goblet_app "main.py"; app_call fn_app "job" 5]) as H.
  { by vm_compute. }
  simpl. rewrite H. split; [done|].
  rewrite !elem_of_cons, elem_of_nil. intros [?|[?|[?|[?|[]]]]]; discriminate.
Qed.

(** ** Runs on concrete inputs *)

(** *** [int] and the limit on the number of digits *)

Lemma digit_val_range (c : ascii) (d : Z) : digit_val c = Some d → (0 ≤ d ≤ 9)%Z.
Proof.
  unfold digit_val.
  destruct ((48 <=? nat_of_ascii c)%nat && (nat_of_ascii c <=? 57)%nat) eqn:H; [|done].
  intros [= <-]. apply andb_true_iff in H as [H1 H2].
  apply Nat.leb_le in H1, H2. lia.
Qed.

(** The run of digits read by [int_digits] denotes a number of as many
    decimal digits as were counted. *)
Lemma int_digits_bound (s : string) :
  ∀ (underscore : bool) (acc count z n : Z) (rest : string),
    int_digits underscore acc count s = Some (z, n, rest) →
    (0 ≤ count)%Z → (0 ≤ acc < 10 ^ count)%Z →
    (count ≤ n)%Z ∧ (0 ≤ z < 10 ^ n)%Z.
Proof.
  induction s as [|c s IH]; intros underscore acc count z n rest; simpl.
  - destruct underscore; [done|]. intros [= <- <- <-] ? ?. lia.
  - destruct (digit_val c) as [d|] eqn:Hd.
    + intros Hrun Hcount Hacc. apply digit_val_range in Hd.
      apply IH in Hrun; [lia|lia|].
      rewrite Z.pow_add_r, Z.pow_1_r by lia. lia.
    + destruct (Ascii.eqb c "_").
      * destruct underscore; [done|]. intros Hrun Hcount Hacc.
        apply IH in Hrun; [lia|lia|lia].
      * destruct underscore; [done|]. intros [= <- <- <-] ? ?. lia.
Qed.

(** [int] accepts no literal of more than 4300 digits: every value it
    returns is below [10 ^ 4300] in absolute value. *)
Lemma py_int_limit (s : string) (z : Z) :
  py_int s = Some z → (- 10 ^ max_str_digits < z < 10 ^ max_str_digits)%Z.
Proof.
  assert (∀ t z', int_unsigned t = IntValue z' → (0 ≤ z' < 10 ^ max_str_digits)%Z) as Hu.
  { intros t z'. unfold int_unsigned. destruct t as [|c t]; [done|].
    destruct (Ascii.eqb c "_"); [done|].
    destruct (int_digits false 0 0 (String c t)) as [[[v n] rest]|] eqn:Hrun; [|done].
    apply int_digits_bound in Hrun; [|lia|simpl; lia].
    destruct (max_str_digits <? n)%Z eqn:Hn; [done|]. apply Z.ltb_ge in Hn.
    destruct (n =? 0)%Z; [done|]. destruct (all_space rest); [|done].
    intros [= <-]. split; [lia|].
    apply Z.lt_le_trans with (10 ^ n); [lia|]. apply Z.pow_le_mono_r; lia. }
  unfold py_int, int_of_string.
  destruct (lstrip s) as [|c t]; [done|].
  destruct (Ascii.eqb c "-").
  - destruct (int_unsigned t) as [v| |] eqn:Hv; simpl; try done.
    intros [= <-]. apply Hu in Hv. lia.
  - destruct (Ascii.eqb c "+").
    + destruct (int_unsigned t) as [v| |] eqn:Hv; simpl; try done.
      intros [= <-]. apply Hu in Hv. lia.
    + destruct (int_unsigned (String c t)) as [v| |] eqn:Hv; simpl; try done.
      intros [= <-]. apply Hu in Hv. lia.
Qed.

Lemma digit_not_space (c : ascii) (d : Z) : digit_val c = Some d → is_space c = false.
Proof.
  unfold digit_val, is_space.
  destruct ((48 <=? nat_of_ascii c)%nat && (nat_of_ascii c <=? 57)%nat) eqn:H; [|done].
  intros _. apply andb_true_iff in H as [H1 H2]. apply Nat.leb_le in H1, H2.
  repeat match goal with
    | |- context [(?a <=? ?b)%nat] => destruct (Nat.leb_spec a b)
    | |- context [(?a =? ?b)%nat] => destruct (Nat.eqb_spec a b)
    end; simpl; try done; lia.
Qed.

Lemma digit_not_sign (c : ascii) (d : Z) :
  digit_val c = Some d →
  Ascii.eqb c "-" = false ∧ Ascii.eqb c "+" = false ∧ Ascii.eqb c "_" = false.
Proof.
  intros Hd. split_and!; apply Ascii.eqb_neq; intros ->; by vm_compute in Hd.
Qed.

(** A run of digits is read to its end, and every digit is counted. *)
Lemma int_digits_all (s : string) :
  ∀ acc count, all_digits s = true →
    ∃ z, int_digits false acc count s = Some (z, (count + Z.of_nat (String.length s))%Z, "").
Proof.
  induction s as [|c s IH]; intros acc count; simpl.
  - intros _. exists acc. by rewrite Z.add_0_r.
  - intros [Hc Hs]%andb_true_iff. apply bool_decide_eq_true_1 in Hc as [d Hd].
    rewrite Hd. destruct (IH (acc * 10 + d)%Z (count + 1)%Z Hs) as [z Hz].
    exists z. rewrite Hz. do 3 f_equal. lia.
Qed.

(** A literal of more than 4300 digits is refused. *)
Lemma long_literal_refused (s : string) :
  all_digits s = true →
  (max_str_digits < Z.of_nat (String.length s))%Z →
  int_of_string s = ExceedsLimit (Z.of_nat (String.length s)) ∧ py_int s = None.
Proof.
  intros Hs Hlen.
  assert (int_of_string s = ExceedsLimit (Z.of_nat (String.length s))) as H.
  { destruct s as [|c s]; [by vm_compute in Hlen|].
    pose proof Hs as Hs'. simpl in Hs'. apply andb_true_iff in Hs' as [Hc _].
    apply bool_decide_eq_true_1 in Hc as [d Hd].
    destruct (digit_not_sign c d Hd) as (Hm & Hp & Hu).
    unfold int_of_string. cbn [lstrip]. rewrite (digit_not_space c d Hd), Hm, Hp.
    unfold int_unsigned. rewrite Hu.
    destruct (int_digits_all (String c s) 0 0 Hs) as [z ->].
    rewrite Z.add_0_l. by rewrite (proj2 (Z.ltb_lt _ _) Hlen). }
  split; [done|]. unfold py_int. by rewrite H.
Qed.

Example int_literals :
  py_int "1" = Some 1 ∧ py_int " 42 " = Some 42 ∧ py_int "-1_0" = Some (-10)
  ∧ py_int "+007" = Some 7 ∧ py_int "abc" = None ∧ py_int "1__0" = None
  ∧ py_int "" = None ∧ py_int "1 2" = None.
Proof. by vm_compute. Qed.

(** The messages of [int]: the literal is shown by its [repr]. *)
Example int_messages :
  int_error "1__0" = "invalid literal for int() with base 10: '1__0'"
  ∧ int_error "it's"
    = "invalid literal for int() with base 10: " +:+ String double_quote "it's"
      +:+ String double_quote ""
  ∧ int_error " 1 2" = "invalid literal for int() with base 10: ' 1 2'".
Proof. by vm_compute. Qed.

Section JobRun.
Context {X : Type} (h : handler X).

(** [job run] with a task id that [int] refuses: the application is
    loaded, then [int] raises [ValueError], and the application is not
    called. *)
Lemma job_run_not_an_integer (name task_id : string) (config : GConfig) (app : App)
    (w : World X) :
  (∀ w', (h GConfig_new w').1 = Return config) →
  (∀ f w', (h (get_goblet_app f) w').1 = Return app) →
  py_int task_id = None →
  let out := run (run_job h name task_id) w in
  out.1 = Raised (ValueError (int_error task_id))
  ∧ trace out.2
    = [environ_setitem "CLOUD_RUN_TASK_INDEX" task_id; GConfig_new;
       get_goblet_app (or_else (main_file config) "main.py")].
Proof.
  intros Hcfg Happ Hint.
  unfold run, run_job, load_app, try_except, int, setenv, echo, extern,
    mbind, M_bind, bind, ret, raise. cbn [world trace]. rewrite Hint. simpl.
  pose proof (Hcfg (set_environ w "CLOUD_RUN_TASK_INDEX" task_id)) as H1.
  destruct (h GConfig_new _) as [r1 w1]. simpl in H1. subst r1. simpl.
  pose proof (Happ (or_else (main_file config) "main.py") w1) as H2.
  destruct (h (get_goblet_app _) w1) as [r2 w2]. simpl in H2. subst r2. simpl.
  done.
Qed.
End JobRun.

(** [deploy] without [main.py]: one message, and the command returns. *)
Example deploy_without_main_py :
  let out := run (deploy (scripted no_entry_file) (Some "proj") "us-central1" (Some "dev")
                    false false None false) world0 in
  out.1 = Return tt
  ∧ stdout (world out.2)
    = ["Missing /srv/app/main.py. Make sure you are in the correct directory and this file exists"].
Proof. by vm_compute. Qed.

(** [job run job abc]: the application is loaded, then [int] raises. *)
Example job_run_not_a_number :
  let out := run (run_job (scripted (ready empty_config)) "job" "abc") world0 in
  out.1 = Raised (ValueError "invalid literal for int() with base 10: 'abc'")
  ∧ trace out.2
    = [environ_setitem "CLOUD_RUN_TASK_INDEX" "abc"; GConfig_new; get_goblet_app "main.py"].
Proof. by vm_compute. Qed.

(** With a project that resolves to the empty string the warning is
    printed and the command goes on. *)
Example empty_project_goes_on :
  let s := {| gcloud_project := Some ""; config_json := empty_config;
              entry_point := λ _, Return fn_app; conflict := false |} in
  let out := run (destroy (scripted s) None "us-central1" None false) world0 in
  out.1 = Return tt
  ∧ trace out.2
    = [get_default_project; click_echo project_not_found;
       environ_setitem "GOOGLE_PROJECT" ""; environ_setitem "GOOGLE_LOCATION" "us-central1";
       GConfig_new; get_goblet_app "main.py"; app_destroy fn_app false].
Proof. by vm_compute. Qed.

(** The orphans of stage [dev] on the drifted provider: the undeclared
    function, and neither the declared one nor the job of stage [prod]. *)
Example orphans_of_dev :
  orphans (declared fn_app) (remote drifted) (Some "dev")
  = [ {| rkind := KFunction; rid := "old-dev" |} ].
Proof. by vm_compute. Qed.

(** [sync -s dev] without dry-run deletes that orphan and nothing else. *)
Example sync_deletes_orphan :
  let out := run (sync (scripted (ready empty_config)) None "us-central1" (Some "dev") false)
               drifted in
  remote (world out.2)
  = [ {| rkind := KFunction; rid := "fn-dev" |}; {| rkind := KJob; rid := "fn-prod" |} ]
  ∧ filter (λ c, mutating c = true) (api_calls (world out.2))
    = [ ApiDelete {| rkind := KFunction; rid := "old-dev" |} ].
Proof. by vm_compute. Qed.

(** [sync -s dev --dryrun] reports it and deletes nothing. *)
Example sync_dryrun_reports :
  let out := run (sync (scripted (ready empty_config)) None "us-central1" (Some "dev") true)
               drifted in
  remote (world out.2) = remote drifted
  ∧ stdout (world out.2) = ["old-dev"]
  ∧ filter (λ c, mutating c = true) (api_calls (world out.2)) = [].
Proof. by vm_compute. Qed.

(** * Further properties of the commands *)

(** ** Rules for triples *)

Section Triples.
Context {X : Type} (h : handler X).

Lemma hoare_ret {A} (P : State X → Prop) (a : A) (Q : Result A → State X → Prop) :
  (∀ st, P st → Q (Return a) st) → hoare P (ret a) Q.
Proof. intros H st Hst. by apply H. Qed.

Lemma hoare_raise {A} (P : State X → Prop) (e : exn) (Q : Result A → State X → Prop) :
  (∀ st, P st → Q (Raised e) st) → hoare P (raise e) Q.
Proof. intros H st Hst. by apply H. Qed.

Lemma hoare_bind {A B} (P : State X → Prop) (R : Result A → State X → Prop)
    (Q : Result B → State X → Prop) (m : M X A) (k : A → M X B) :
  hoare P m R →
  (∀ e st, R (Raised e) st → Q (Raised e) st) →
  (∀ a, hoare (R (Return a)) (k a) Q) →
  hoare P (m ≫= k) Q.
Proof.
  intros Hm He Hk st Hst. unfold mbind, M_bind, bind.
  specialize (Hm st Hst). destruct (m st) as [[a|e] st']; simpl in *.
  - by apply Hk.
  - by apply He.
Qed.

Lemma hoare_try_except {A} (P : State X → Prop) (R Q : Result A → State X → Prop)
    (body : M X A) (on_missing : option string → M X A) :
  hoare P body R →
  (∀ a st, R (Return a) st → Q (Return a) st) →
  (∀ e st, R (Raised e) st → (∀ fn, e ≠ FileNotFoundError fn) → Q (Raised e) st) →
  (∀ fn, hoare (R (Raised (FileNotFoundError fn))) (on_missing fn) Q) →
  hoare P (try_except body on_missing) Q.
Proof.
  intros Hb Hr He Hh st Hst. unfold try_except.
  specialize (Hb st Hst). destruct (body st) as [[a|e] st']; simpl in *.
  - by apply Hr.
  - destruct e; try (by apply He). by apply Hh.
Qed.

Lemma hoare_extern (P : State X → Prop) (c : call) (Q : Result (ans c) → State X → Prop) :
  (∀ st, P st → Q (h c (world st)).1
                  {| world := (h c (world st)).2; trace := trace st ++ [c] |}) →
  hoare P (extern h c) Q.
Proof.
  intros H st Hst. unfold extern. specialize (H st Hst).
  by destruct (h c (world st)).
Qed.

Lemma hoare_echo (P : State X → Prop) (msg : string) (Q : Result unit → State X → Prop) :
  (∀ st, P st → Q (Return tt) {| world := add_stdout (world st) msg;
                                 trace := trace st ++ [click_echo msg] |}) →
  hoare P (echo msg) Q.
Proof. intros H st Hst. by apply H. Qed.

Lemma hoare_setenv (P : State X → Prop) (key : string) (value : option string)
    (Q : Result unit → State X → Prop) :
  (∀ v st, value = Some v → P st →
           Q (Return tt) {| world := set_environ (world st) key v;
                            trace := trace st ++ [environ_setitem key v] |}) →
  (value = None → ∀ st, P st → Q (Raised (TypeError "str expected, not NoneType")) st) →
  hoare P (setenv key value) Q.
Proof.
  intros Hs Hn st Hst. destruct value as [v|]; simpl.
  - by apply Hs.
  - by apply Hn.
Qed.

Lemma hoare_fact {A} (P : State X → Prop) (fact : Prop) (m : M X A)
    (Q : Result A → State X → Prop) :
  (fact → hoare P m Q) → hoare (λ st, P st ∧ fact) m Q.
Proof. intros H st [Hst Hf]. by apply H. Qed.

Lemma hoare_preserves {A} (I : State X → Prop) (m : M X A) :
  preserves I m → hoare I m (λ _, I).
Proof. intros H st Hst. by apply H. Qed.
End Triples.

(** An invariant that calls other than those in [bad] keep is kept by the
    parts of the commands that make no such call. *)
Section Stable.
Context {X : Type} (h : handler X) (I : State X → Prop) (bad : call → bool).
Hypothesis Hstable : ∀ (st : State X) (w' : World X) (c : call),
  bad c = false → I st → I {| world := w'; trace := trace st ++ [c] |}.

Lemma stable_extern (c : call) : bad c = false → preserves I (extern h c).
Proof. intros Hc. apply preserves_extern. intros st Hst. by apply Hstable. Qed.

Lemma stable_echo (msg : string) :
  bad (click_echo msg) = false → preserves (X:=X) I (echo msg).
Proof. intros Hc. apply preserves_echo. intros st Hst. by apply Hstable. Qed.

Lemma stable_setenv (key : string) (value : option string) :
  (∀ v, bad (environ_setitem key v) = false) → preserves (X:=X) I (setenv key value).
Proof. intros Hc. apply preserves_setenv. intros v st Hst. by apply Hstable. Qed.

Lemma stable_set_project (project : option string) (location : string)
    (stage : option string) :
  bad get_default_project = false →
  (∀ msg, bad (click_echo msg) = false) →
  (∀ k v, bad (environ_setitem k v) = false) →
  preserves I (set_project h project location stage).
Proof.
  intros H1 H2 H3. unfold set_project.
  apply preserves_bind.
  { destruct (truthy project); [apply preserves_ret|].
    by apply (stable_extern get_default_project). }
  intros p. apply preserves_bind; [by apply preserves_when, stable_echo|]. intros _.
  apply preserves_bind; [by apply stable_setenv|]. intros _.
  apply preserves_bind; [by apply stable_setenv|]. intros _.
  by apply preserves_when, stable_setenv.
Qed.

Lemma stable_load_app :
  bad GConfig_new = false → (∀ f, bad (get_goblet_app f) = false) →
  preserves I (load_app h).
Proof.
  intros H1 H2. unfold load_app.
  apply preserves_bind; [by apply (stable_extern GConfig_new)|].
  intros config. by apply (stable_extern (get_goblet_app _)).
Qed.
End Stable.

(** ** How the application is called *)

Lemma app_calls_snoc (tr : list call) (c : call) :
  app_calls (tr ++ [c]) = app_calls tr ++ (if is_app_method c then [c] else []).
Proof.
  unfold app_calls. rewrite filter_app. f_equal.
  destruct (is_app_method c) eqn:Hc.
  - by rewrite filter_cons_True.
  - rewrite filter_cons_False; [done|]. by rewrite Hc.
Qed.

Lemma no_app_stable {X} (st : State X) (w' : World X) (c : call) :
  is_app_method c = false → no_app st → no_app {| world := w'; trace := trace st ++ [c] |}.
Proof.
  unfold no_app. simpl. intros Hc Hst.
  by rewrite app_calls_snoc, Hst, Hc.
Qed.

Section AppCalls.
Context {X : Type} (h : handler X) (own : call → Prop).

Lemma once_seq {A B} (m : M X A) (k : A → M X B) :
  preserves no_app m →
  (∀ a, hoare no_app (k a) (λ _ st, calls_app_once own (trace st))) →
  hoare no_app (m ≫= k) (λ _ st, calls_app_once own (trace st)).
Proof.
  intros Hm Hk.
  apply (hoare_bind no_app (λ _, no_app)); [by apply hoare_preserves| |done].
  intros e st Hst. by left.
Qed.

Lemma once_final (c : call) :
  is_app_method c = true → own c →
  hoare no_app (extern h c) (λ _ st, calls_app_once own (trace st)).
Proof.
  intros Hc Hown. apply hoare_extern. intros st Hst. right. exists c. simpl.
  unfold no_app in Hst. by rewrite app_calls_snoc, Hst, Hc.
Qed.

Lemma once_try (body : M X unit) :
  hoare no_app body (λ _ st, calls_app_once own (trace st)) →
  hoare no_app (try_except body (λ fn, echo (missing fn)))
    (λ _ st, calls_app_once own (trace st)).
Proof.
  intros Hbody.
  apply (hoare_try_except no_app (λ _ st, calls_app_once own (trace st))); [done..|].
  intros fn. apply hoare_echo. intros st Hst. unfold calls_app_once in *.
  cbn [trace]. rewrite app_calls_snoc. simpl. by rewrite (right_id_L [] (++)).
Qed.
End AppCalls.

(** Start on the triple of the body of a command. *)
Local Ltac guarded :=
  unfold run, deploy, destroy, sync, package;
  lazymatch goal with
  | |- calls_app_once ?own (trace (try_except ?b ?hd ?st).2) =>
      refine (once_try own b _ st _); [|done]
  end.


(** Each command calls the application at most once, only through its own
    method, and with the options of the user ([force] apart, which
    [deploy] replaces by [False]). *)
Lemma commands_call_app_once {X} (h : handler X)
    (project : option string) (location : string) (stage : option string)
    (skip_function only_function : bool) (config : option string)
    (force all dryrun : bool) (name task_id : string) (w : World X) :
  calls_app_once
    (λ c, ∃ app cfg, c = app_deploy app skip_function only_function cfg false
                     ∧ (truthy config = false → cfg = ConfigRaw config)
                     ∧ (truthy config = true →
                        ∃ s j w', config = Some s
                                  ∧ (h (json_loads s) w').1 = Return j
                                  ∧ cfg = ConfigJson j))
    (trace (run (deploy h project location stage skip_function only_function
                   config force) w).2)
  ∧ calls_app_once (λ c, ∃ app, c = app_destroy app all)
      (trace (run (destroy h project location stage all) w).2)
  ∧ calls_app_once (λ c, ∃ app, c = app_sync app dryrun)
      (trace (run (sync h project location stage dryrun) w).2)
  ∧ calls_app_once (λ c, ∃ app, c = app_package app)
      (trace (run (package h stage) w).2)
  ∧ calls_app_once (λ c, ∃ app index, c = app_call app name index
                                      ∧ py_int task_id = Some index)
      (trace (run (run_job h name task_id) w).2).
Proof.
  pose proof (@no_app_stable X) as Hst.
  assert (∀ project location stage,
            preserves no_app (set_project h project location stage)) as Hhead.
  { intros. by apply (stable_set_project h no_app is_app_method). }
  assert (preserves no_app (load_app h)) as Hload.
  { by apply (stable_load_app h no_app is_app_method). }
  split_and!.
  - guarded. apply once_seq; [apply Hhead|]. intros _.
    apply (hoare_bind no_app
             (λ r st, no_app st
                      ∧ ∀ cfg, r = Return cfg →
                               (truthy config = false → cfg = ConfigRaw config)
                               ∧ (truthy config = true →
                                  ∃ s j w', config = Some s
                                            ∧ (h (json_loads s) w').1 = Return j
                                            ∧ cfg = ConfigJson j))).
    + destruct (truthy config) eqn:Hcfg.
      * assert (∃ s, config = Some s ∧ or_else config "" = s) as (s & Hs & Hor).
        { unfold truthy, or_else in *. destruct config as [s|]; [|done].
          exists s. split; [done|]. by destruct (String.eqb s ""). }
        rewrite Hor.
        apply (hoare_bind no_app
                 (λ r st, no_app st
                          ∧ ∀ j, r = Return j → ∃ w', (h (json_loads s) w').1 = Return j)).
        { apply (hoare_extern h no_app (json_loads s)). intros st Hno. split.
          - by apply Hst.
          - intros j Hj. by exists (world st). }
        { intros e st [Hno _]. split; [done|]. intros cfg [=]. }
        intros j. apply hoare_ret. intros st [Hno Hj]. split; [done|].
        intros cfg [= <-]. split; [done|]. intros _.
        destruct (Hj j eq_refl) as [w' Hw']. by exists s, j, w'.
      * apply hoare_ret. intros st Hs. split; [done|]. by intros cfg [= <-].
    + intros e st [Hs _]. by left.
    + intros cfg. apply hoare_fact. intros Hcfg.
      apply once_seq; [apply Hload|]. intros app.
      apply (once_final h _ (app_deploy app skip_function only_function cfg false)); [done|].
      exists app, cfg. split; [done|]. by apply Hcfg.
  - guarded. apply once_seq; [apply Hhead|]. intros _.
    apply once_seq; [apply Hload|]. intros app.
    apply (once_final h _ (app_destroy app all)); [done|]. by exists app.
  - guarded. apply once_seq; [apply Hhead|]. intros _.
    apply once_seq; [apply Hload|]. intros app.
    apply (once_final h _ (app_sync app dryrun)); [done|]. by exists app.
  - guarded.
    apply once_seq.
    { apply preserves_when. by apply (stable_setenv no_app is_app_method). }
    intros _. apply once_seq; [apply Hload|]. intros app.
    apply (once_final h _ (app_package app)); [done|]. by exists app.
  - unfold run, run_job, mbind at 1, M_bind at 1, bind at 1. simpl.
    lazymatch goal with
    | |- calls_app_once ?own (trace (try_except ?b ?hd ?st).2) =>
        refine (once_try own b _ st _); [|done]
    end.
    apply once_seq; [apply Hload|]. intros app.
    unfold int. destruct (py_int task_id) as [index|] eqn:Hint.
    + apply (hoare_bind no_app (λ r st, no_app st ∧ r = Return index)).
      * apply hoare_ret. by intros st Hs.
      * intros e st [_ [=]].
      * intros index'. apply hoare_fact. intros [= ->].
        apply (once_final h _ (app_call app name index)); [done|]. by exists app, index.
    + apply (hoare_bind no_app (λ r st, no_app st ∧ ∃ e, r = Raised e)).
      * apply hoare_raise. intros st Hs. split; [done|]. by eexists.
      * intros e st [Hs _]. by left.
      * intros index. apply hoare_fact. by intros [e [=]].
Qed.

(** X1: each of [deploy], [destroy] and [sync] calls the application at
    most once, only through its own method, and with the options of the
    user ([force] apart, which [deploy] replaces by [False]):
    [skip_function], [only_function] and the configuration, [all],
    [dryrun].  The configuration handed to [app.deploy] is the option as
    given when it is falsy, and otherwise what [json.loads] returned for
    the string of the user. *)
Theorem app_called_once {X} (h : handler X)
    (project : option string) (location : string) (stage : option string)
    (skip_function only_function : bool) (config : option string)
    (force all dryrun : bool) (w : World X) :
  calls_app_once
    (λ c, ∃ app cfg, c = app_deploy app skip_function only_function cfg false
                     ∧ (truthy config = false → cfg = ConfigRaw config)
                     ∧ (truthy config = true →
                        ∃ s j w', config = Some s
                                  ∧ (h (json_loads s) w').1 = Return j
                                  ∧ cfg = ConfigJson j))
    (trace (run (deploy h project location stage skip_function only_function
                   config force) w).2)
  ∧ calls_app_once (λ c, ∃ app, c = app_destroy app all)
      (trace (run (destroy h project location stage all) w).2)
  ∧ calls_app_once (λ c, ∃ app, c = app_sync app dryrun)
      (trace (run (sync h project location stage dryrun) w).2).
Proof.
  destruct (commands_call_app_once h project location stage skip_function only_function
              config force all dryrun "" "" w) as (Hdeploy & Hdestroy & Hsync & _).
  done.
Qed.

(** X15: [package] and [job run] call the application at most once, only
    through [app.package()] and [app(name, index)], with the job name given
    and the integer of the task id. *)
Theorem package_job_call_app_once {X} (h : handler X) (stage : option string)
    (name task_id : string) (w : World X) :
  calls_app_once (λ c, ∃ app, c = app_package app)
    (trace (run (package h stage) w).2)
  ∧ calls_app_once (λ c, ∃ app index, c = app_call app name index
                                      ∧ py_int task_id = Some index)
      (trace (run (run_job h name task_id) w).2).
Proof.
  destruct (commands_call_app_once h None "" stage false false None false false false
              name task_id w) as (_ & _ & _ & Hpackage & Hjob).
  done.
Qed.

(** ** What is exported, and when *)

Lemma exports_snoc (tr : list call) (c : call) :
  exports (tr ++ [c])
  = exports tr ++ match c with
                  | environ_setitem key value => [(key, value)]
                  | _ => []
                  end.
Proof. unfold exports. rewrite omap_app. f_equal. by destruct c. Qed.

Lemma before_load_stable {X} (E : list (string * string)) (st : State X)
    (w' : World X) (c : call) :
  is_load c || is_export c = false →
  before_load E st → before_load E {| world := w'; trace := trace st ++ [c] |}.
Proof.
  intros Hc [Hl He]. apply orb_false_iff in Hc as [Hc1 Hc2]. split.
  - by apply no_load_snoc.
  - simpl. rewrite exports_snoc, He.
    destruct c; try done; by rewrite (right_id_L [] (++)).
Qed.

Lemma after_load_stable {X} (E : list (string * string)) (st : State X)
    (w' : World X) (c : call) :
  is_export c = false →
  after_load E st → after_load E {| world := w'; trace := trace st ++ [c] |}.
Proof.
  intros Hc (Hl & Hn & He). unfold after_load. simpl.
  rewrite from_load_snoc, !exports_snoc, He.
  destruct (from_load (trace st)) as [|c0 l] eqn:Hfl; [done|].
  rewrite exports_snoc, Hn.
  split_and!; [by destruct l| |]; destruct c; try done; by rewrite (right_id_L [] (++)).
Qed.

Section Exports.
Context {X : Type} (h : handler X).

Lemma hoare_post {A} (P : State X → Prop) (Q Q' : Result A → State X → Prop) (m : M X A) :
  hoare P m Q → (∀ r st, Q r st → Q' r st) → hoare P m Q'.
Proof. intros H HQ st Hst. by apply HQ, H. Qed.

Lemma hoare_exists {A T} (P : T → State X → Prop) (m : M X A)
    (Q : Result A → State X → Prop) :
  (∀ x, hoare (P x) m Q) → hoare (λ st, ∃ x, P x st) m Q.
Proof. intros H st [x Hst]. by apply (H x). Qed.

(** From the load on: the state goes from [before_load] to [after_load],
    and stays there when what follows exports nothing. *)
Lemma load_app_exports {B} (E : list (string * string)) (k : App → M X B) :
  (∀ app, preserves (after_load E) (k app)) →
  hoare (before_load E) (load_app h ≫= k)
    (λ _ st, before_load E st ∨ after_load E st).
Proof.
  intros Hk. unfold load_app.
  apply (hoare_bind _ (λ r st, match r with
                               | Return _ => after_load E st
                               | Raised _ => before_load E st ∨ after_load E st
                               end)).
  - apply (hoare_bind _ (λ _, before_load E)).
    + apply hoare_preserves.
      by apply (stable_extern h _ _ (before_load_stable E) GConfig_new).
    + intros e st Hst. by left.
    + intros config. apply (hoare_extern h _ (get_goblet_app _)).
      intros st [Hl He].
      assert (after_load E {| world := (h (get_goblet_app
                                              (or_else (main_file config) "main.py"))
                                          (world st)).2;
                              trace := trace st ++ [get_goblet_app
                                                      (or_else (main_file config) "main.py")] |})
        as Hafter.
      { unfold after_load, no_load in *. simpl.
        rewrite from_load_snoc, exports_snoc, Hl, He. simpl.
        by rewrite (right_id_L [] (++)). }
      destruct (h (get_goblet_app _) (world st)) as [[app|e] w1]; simpl in *; [done|by right].
  - done.
  - intros app st Hst. right. by apply Hk.
Qed.

Lemma exports_try (P : State X → Prop) (expected : list (string * string) → Prop)
    (body : M X unit) :
  hoare P body
    (λ _ st, ∃ E, (before_load E st ∨ after_load E st) ∧ (no_load st ∨ expected E)) →
  hoare P (try_except body (λ fn, echo (missing fn)))
    (λ _ st, exports_then_load expected (trace st)).
Proof.
  intros Hbody.
  assert (∀ (st : State X) E,
            (before_load E st ∨ after_load E st) ∧ (no_load st ∨ expected E) →
            exports_then_load expected (trace st)) as Hfin.
  { intros st E [[[Hl He]|(Hl & Hn & He)] Hex]; unfold exports_then_load, no_load in *.
    - by rewrite Hl.
    - split; [done|]. intros _. rewrite He. by destruct Hex. }
  apply (hoare_try_except _ (λ _ st, ∃ E, (before_load E st ∨ after_load E st)
                                          ∧ (no_load st ∨ expected E))); [done|..].
  - intros [] st (E & H). by apply (Hfin st E).
  - intros e st (E & H) _. by apply (Hfin st E).
  - intros fn. apply hoare_echo. intros st (E & [Hb|Ha] & Hex).
    + apply (Hfin _ E). split.
      * left. by apply before_load_stable.
      * destruct Hex as [Hl|?]; [left|by right]. by apply no_load_snoc.
    + apply (Hfin _ E). split.
      * right. by apply after_load_stable.
      * destruct Hex as [Hl|?]; [|by right].
        destruct Ha as [Hne _]. by rewrite Hl in Hne.
Qed.

(** The head of [deploy], [destroy] and [sync] exports the project, the
    location and the stage, in that order, or raises before the load. *)
Lemma set_project_exports (project : option string) (location : string)
    (stage : option string) :
  hoare (before_load []) (set_project h project location stage)
    (λ r st, match r with
             | Return _ => ∃ p, before_load (exported p location stage) st
                                ∧ (truthy project = true → project = Some p)
             | Raised _ => no_load st
             end).
Proof.
  intros st [Hl He]. unfold no_load in Hl.
  unfold set_project, before_load, exported, no_load, when, setenv, echo, extern,
    mbind, M_bind, bind, ret, raise, truthy.
  destruct stage as [s|], project as [v|]; simpl.
  all: repeat match goal with
         | |- context [String.eqb ?x ""] => destruct (String.eqb x "") eqn:?; simpl
         end.
  all: try (destruct (h get_default_project (world st)) as [[[p|]|e] w1]; simpl).
  all: repeat match goal with
         | |- context [String.eqb ?x ""] => destruct (String.eqb x "") eqn:?; simpl
         end.
  all: rewrite ?from_load_snoc, ?Hl; simpl; rewrite ?from_load_snoc, ?Hl; simpl.
  all: try done.
  all: eexists; (split; [split; [done|rewrite !exports_snoc, He; reflexivity]|done]).
Qed.
End Exports.

Section ExportsBeforeLoad.
Context {X : Type} (h : handler X).

(** The body of a command from a state with [E] exported: calls that
    neither load nor export, the load, then calls that do not export. *)
Lemma exports_rest {A B} (E : list (string * string))
    (expected : list (string * string) → Prop) (mid : M X A)
    (fin : A → App → M X B) :
  expected E →
  preserves (before_load E) mid →
  (∀ a app, preserves (after_load E) (fin a app)) →
  hoare (before_load E) (a ← mid; app ← load_app h; fin a app)
    (λ _ st, ∃ E', (before_load E' st ∨ after_load E' st) ∧ (no_load st ∨ expected E')).
Proof.
  intros Hex Hmid Hfin.
  apply (hoare_bind _ (λ _, before_load E)); [by apply hoare_preserves|..].
  - intros e st Hst. exists E. split; [by left|by right].
  - intros a. apply (hoare_post _ (λ _ st, before_load E st ∨ after_load E st)).
    + by apply load_app_exports.
    + intros r st Hst. exists E. split; [done|by right].
Qed.

Lemma after_load_app_method (E : list (string * string)) (c : call) :
  is_export c = false → preserves (after_load E) (extern h c).
Proof.
  intros Hc. apply preserves_extern. intros st Hst. by apply after_load_stable.
Qed.

(** The environment is set before the application is loaded and not
    after. *)
Lemma commands_export_before_load
    (project : option string) (location : string) (stage : option string)
    (skip_function only_function : bool) (config : option string)
    (force all dryrun : bool) (name task_id : string) (w : World X) :
  let resolved (l : list (string * string)) :=
    ∃ p, l = exported p location stage ∧ (truthy project = true → project = Some p) in
  exports_then_load resolved
    (trace (run (deploy h project location stage skip_function only_function
                   config force) w).2)
  ∧ exports_then_load resolved (trace (run (destroy h project location stage all) w).2)
  ∧ exports_then_load resolved (trace (run (sync h project location stage dryrun) w).2)
  ∧ exports_then_load
      (λ l, l = if truthy stage then [("STAGE", default "" stage)] else [])
      (trace (run (package h stage) w).2)
  ∧ exports_then_load (λ l, l = [("CLOUD_RUN_TASK_INDEX", task_id)])
      (trace (run (run_job h name task_id) w).2).
Proof.
  intros resolved.
  assert (before_load [] {| world := w; trace := [] |}) as Hw by done.
  assert (∀ (fin : M X unit),
            (∀ p, resolved (exported p location stage) →
                  hoare (before_load (exported p location stage)) fin
                    (λ _ st, ∃ E', (before_load E' st ∨ after_load E' st)
                                   ∧ (no_load st ∨ resolved E'))) →
            exports_then_load resolved
              (trace (run (try_except (set_project h project location stage;; fin)
                             (λ fn, echo (missing fn))) w).2)) as Hhead.
  { intros fin Hfin. unfold run.
    refine (exports_try (before_load []) resolved _ _ _ Hw).
    apply (hoare_bind _ _ _ _ _ (set_project_exports h project location stage)).
    - intros e st Hst. exists (exports (trace st)). split; [by left|by left].
    - intros _. apply hoare_exists. intros p. apply hoare_fact. intros Hp.
      apply Hfin. by exists p. }
  split_and!.
  - apply Hhead. intros p Hp.
    apply (exports_rest (exported p location stage) resolved
             (if truthy config
              then j ← extern h (json_loads (or_else config "")); ret (ConfigJson j)
              else ret (ConfigRaw config))
             (λ cfg app, extern h (app_deploy app skip_function only_function cfg false)));
      [done| |].
    + destruct (truthy config); [|apply preserves_ret].
      apply preserves_bind; [|intros j; apply preserves_ret].
      by apply (stable_extern h _ _ (before_load_stable _) (json_loads _)).
    + intros cfg app. by apply (after_load_app_method _ (app_deploy _ _ _ _ _)).
  - apply Hhead. intros p Hp.
    apply (hoare_post _ (λ _ st, before_load (exported p location stage) st
                                   ∨ after_load (exported p location stage) st)).
    + apply load_app_exports. intros app.
      by apply (after_load_app_method _ (app_destroy _ _)).
    + intros r st Hst. eexists. split; [done|by right].
  - apply Hhead. intros p Hp.
    apply (hoare_post _ (λ _ st, before_load (exported p location stage) st
                                   ∨ after_load (exported p location stage) st)).
    + apply load_app_exports. intros app.
      by apply (after_load_app_method _ (app_sync _ _)).
    + intros r st Hst. eexists. split; [done|by right].
  - unfold run, package.
    set (E := if truthy stage then [("STAGE", default "" stage)] else []).
    refine (exports_try (before_load []) _ _ _ _ Hw).
    apply (hoare_bind _ (λ r st, match r with
                                 | Return _ => before_load E st
                                 | Raised _ => no_load st
                                 end)).
    + intros st [Hl He]. unfold E, when, setenv, before_load, no_load in *.
      destruct stage as [s|]; simpl; [|done].
      destruct (String.eqb s ""); simpl; [done|].
      by rewrite from_load_snoc, exports_snoc, Hl, He.
    + intros e st Hst. exists (exports (trace st)). split; [by left|by left].
    + intros _.
      apply (hoare_post _ (λ _ st, before_load E st ∨ after_load E st)).
      * apply load_app_exports. intros app.
        by apply (after_load_app_method _ (app_package _)).
      * intros r st Hst. eexists. split; [done|by right].
  - unfold run, run_job, mbind at 1, M_bind at 1, bind at 1. simpl.
    set (E := [("CLOUD_RUN_TASK_INDEX", task_id)]).
    refine (exports_try (before_load E) _ _ _ _ _); [|done].
    apply (hoare_post _ (λ _ st, before_load E st ∨ after_load E st)).
    + apply load_app_exports. intros app.
      apply preserves_bind; [apply preserves_int|]. intros index.
      by apply (after_load_app_method _ (app_call _ _ _)).
    + intros r st Hst. eexists. split; [done|by right].
Qed.

(** X2: the environment is set before the application is loaded and not
    after.  When [deploy], [destroy] or [sync] load the application, they
    have exported [GOOGLE_PROJECT] (the given project when there is one),
    [GOOGLE_LOCATION] and, for a non-empty stage, [STAGE], in that order
    and nothing else. *)
Theorem exports_precede_load
    (project : option string) (location : string) (stage : option string)
    (skip_function only_function : bool) (config : option string)
    (force all dryrun : bool) (w : World X) :
  let resolved (l : list (string * string)) :=
    ∃ p, l = exported p location stage ∧ (truthy project = true → project = Some p) in
  exports_then_load resolved
    (trace (run (deploy h project location stage skip_function only_function
                   config force) w).2)
  ∧ exports_then_load resolved (trace (run (destroy h project location stage all) w).2)
  ∧ exports_then_load resolved (trace (run (sync h project location stage dryrun) w).2).
Proof.
  destruct (commands_export_before_load project location stage skip_function
              only_function config force all dryrun "" "" w)
    as (Hdeploy & Hdestroy & Hsync & _).
  done.
Qed.

(** X16: when [package] loads the application it has exported [STAGE], for
    a non-empty stage, and nothing else; [job run] has exported
    [CLOUD_RUN_TASK_INDEX]; neither assigns to the environment after the
    load. *)
Theorem package_job_export_before_load (stage : option string) (name task_id : string)
    (w : World X) :
  exports_then_load
    (λ l, l = if truthy stage then [("STAGE", default "" stage)] else [])
    (trace (run (package h stage) w).2)
  ∧ exports_then_load (λ l, l = [("CLOUD_RUN_TASK_INDEX", task_id)])
      (trace (run (run_job h name task_id) w).2).
Proof.
  destruct (commands_export_before_load None "" stage false false None false false false
              name task_id w) as (_ & _ & _ & Hpackage & Hjob).
  done.
Qed.
End ExportsBeforeLoad.

(** ** The project that is given *)

Lemma filter_snoc_false {A} (P : A → bool) (l : list A) (x : A) :
  P x = false → filter (λ y, P y = true) (l ++ [x]) = filter (λ y, P y = true) l.
Proof.
  intros Hx. rewrite filter_app, filter_cons_False by (by rewrite Hx).
  by rewrite filter_nil, (right_id_L [] (++)).
Qed.

(** X3: with a non-empty [--project] (or [GOOGLE_PROJECT]), [deploy],
    [destroy] and [sync] never call [get_default_project()] and never
    print the "Project not found" warning. *)
Theorem given_project_is_used {X} (h : handler X)
    (project : option string) (location : string) (stage : option string)
    (skip_function only_function : bool) (config : option string)
    (force all dryrun : bool) (w : World X) :
  truthy project = true →
  filter (λ c, warns_or_asks c = true)
    (trace (run (deploy h project location stage skip_function only_function
                   config force) w).2) = []
  ∧ filter (λ c, warns_or_asks c = true)
      (trace (run (destroy h project location stage all) w).2) = []
  ∧ filter (λ c, warns_or_asks c = true)
      (trace (run (sync h project location stage dryrun) w).2) = [].
Proof.
  intros Hp.
  set (I := λ st : State X, filter (λ c, warns_or_asks c = true) (trace st) = []).
  assert (∀ (st : State X) (w' : World X) (c : call),
            warns_or_asks c = false → I st →
            I {| world := w'; trace := trace st ++ [c] |}) as Hst.
  { intros st w' c Hc Hst. unfold I in *. simpl. by rewrite filter_snoc_false. }
  assert (preserves I (set_project h project location stage)) as Hhead.
  { intros st HI. unfold I in *. destruct project as [v|]; [|done].
    unfold set_project, when, setenv, echo, extern, mbind, M_bind, bind, ret, raise,
      truthy in *.
    destruct stage as [s|]; simpl.
    all: repeat match goal with
           | |- context [String.eqb ?x ""] => destruct (String.eqb x "") eqn:?; simpl
           end.
    all: try done.
    all: by rewrite !filter_snoc_false. }
  assert (preserves I (load_app h)) as Hload
    by (by apply (stable_load_app h I warns_or_asks)).
  assert (∀ fn, preserves I (echo (X:=X) (missing fn))) as Hecho.
  { intros fn. by apply (stable_echo I warns_or_asks). }
  assert (I {| world := w; trace := [] |}) as Hw by done.
  split_and!.
  - apply (preserves_try_except I); [|done..].
    apply preserves_bind; [done|]. intros _.
    apply preserves_bind.
    { destruct (truthy config); [|apply preserves_ret].
      apply preserves_bind; [|intros j; apply preserves_ret].
      by apply (stable_extern h I warns_or_asks Hst (json_loads _)). }
    intros cfg. apply preserves_bind; [done|]. intros app.
    by apply (stable_extern h I warns_or_asks Hst (app_deploy _ _ _ _ _)).
  - apply (preserves_try_except I); [|done..].
    apply preserves_bind; [done|]. intros _.
    apply preserves_bind; [done|]. intros app.
    by apply (stable_extern h I warns_or_asks Hst (app_destroy _ _)).
  - apply (preserves_try_except I); [|done..].
    apply preserves_bind; [done|]. intros _.
    apply preserves_bind; [done|]. intros app.
    by apply (stable_extern h I warns_or_asks Hst (app_sync _ _)).
Qed.

(** [deploy -p proj] never asks gcloud. *)
Lemma given_project_is_used_witness :
  filter (λ c, warns_or_asks c = true)
    (trace (run (deploy (scripted no_project) (Some "proj") "us-central1" None
                   false false None false) world0).2) = []
  ∧ filter (λ c, warns_or_asks c = true)
      (trace (run (destroy (scripted no_project) (Some "proj") "us-central1" None false)
                world0).2) = []
  ∧ filter (λ c, warns_or_asks c = true)
      (trace (run (sync (scripted no_project) (Some "proj") "us-central1" None false)
                world0).2) = [].
Proof.
  apply (given_project_is_used (scripted no_project) (Some "proj")). reflexivity.
Defined.

(** ** Errors that leave the commands *)

Section Errors.
Context {X : Type} (h : handler X).

Local Ltac unfold_cli :=
  unfold run, deploy, destroy, sync, package, create, run_job, set_project, load_app,
    try_except, when, int, setenv, echo, extern, mbind, M_bind, bind, ret, raise, truthy.

(** Use the answer [H] of the collaborators to the pending call. *)
Local Ltac answer H :=
  lazymatch goal with
  | |- context [h ?c ?w] =>
      let E := fresh "E" in
      let r := fresh "r" in
      let w' := fresh "w" in
      pose proof (H w) as E; destruct (h c w) as [r w']; simpl in E; subst r; simpl
  end.

Local Ltac strings :=
  repeat match goal with
    | |- context [String.eqb ?x ""] => destruct (String.eqb x "") eqn:?; simpl in *
    end.

(** X4: [stage create] has no [except] clause: when the entry file is
    missing, the [FileNotFoundError] of [get_goblet_app] leaves the
    command as the loader raised it, whatever file name it carries;
    nothing is written and nothing is printed. *)
Theorem create_missing_entry_file (stage : string) (w : World X) (config : GConfig)
    (path : string → option string) :
  (∀ w', (h GConfig_new w').1 = Return config) →
  (∀ f w', (h (get_goblet_app f) w').1 = Raised (FileNotFoundError (path f))) →
  default ∅ (stages config) !! stage = None →
  let out := run (create h stage) w in
  out.1 = Raised (FileNotFoundError (path (or_else (main_file config) "main.py")))
  ∧ trace out.2
    = [GConfig_new; GConfig_new; get_goblet_app (or_else (main_file config) "main.py")].
Proof.
  intros Hcfg Hmissing Hfresh. unfold_cli. cbn [world trace].
  answer Hcfg. rewrite stage_test, Hfresh.
  rewrite bool_decide_eq_false_2 by (by intros [? ?]).
  answer Hcfg. answer (Hmissing (or_else (main_file config) "main.py")). done.
Qed.

(** X5: [stage create] prints its message only after [config.write()] has
    returned: when the write raises, the exception leaves the command and
    nothing is printed; when it returns, the command returns and the one
    message names the stage and the function name recorded for it. *)
Theorem create_reports_after_write (stage : string) (w : World X) (config : GConfig)
    (app : App) :
  (∀ w', (h GConfig_new w').1 = Return config) →
  (∀ f w', (h (get_goblet_app f) w').1 = Return app) →
  default ∅ (stages config) !! stage = None →
  let out := run (create h stage) w in
  (∀ e, out.1 = Raised e → echoes (trace out.2) = [])
  ∧ (out.1 = Return tt →
     echoes (trace out.2)
     = ["stage " +:+ stage +:+ " created in config.json with function name "
        +:+ function_name app +:+ "-" +:+ stage])
  ∧ (out.1 = Return tt ∨ ∃ e written w', out.1 = Raised e
                                          ∧ (h (GConfig_write written) w').1 = Raised e).
Proof.
  intros Hcfg Happ Hfresh. unfold_cli. cbn [world trace].
  answer Hcfg. rewrite stage_test, Hfresh.
  rewrite bool_decide_eq_false_2 by (by intros [? ?]).
  answer Hcfg. answer (Happ (or_else (main_file config) "main.py")).
  lazymatch goal with
  | |- context [h (GConfig_write ?c) ?w] =>
      destruct (h (GConfig_write c) w) as [[[]|e] w'] eqn:Hw
  end; simpl.
  - split_and!; [done..|by left].
  - split_and!; [done..|]. right. eexists _, _, _. split; [done|]. by rewrite Hw.
Qed.

(** X6: when the string given to [deploy] as configuration is not JSON,
    the error of [json.loads] leaves the command: the environment has been
    set already, but the application is neither loaded nor called. *)
Theorem deploy_invalid_config (project : option string) (location : string)
    (stage : option string) (skip_function only_function : bool)
    (config : option string) (force : bool) (e : exn) (w : World X) :
  truthy project = true →
  truthy config = true →
  (∀ s w', (h (json_loads s) w').1 = Raised e) →
  (∀ fn, e ≠ FileNotFoundError fn) →
  let out := run (deploy h project location stage skip_function only_function
                    config force) w in
  out.1 = Raised e
  ∧ from_load (trace out.2) = []
  ∧ app_calls (trace out.2) = []
  ∧ echoes (trace out.2) = []
  ∧ exports (trace out.2) = exported (default "" project) location stage.
Proof.
  intros Hp Hc Hjson Hnot. unfold_cli. unfold exported, truthy in *.
  destruct project as [p|]; [|done]. destruct config as [c|]; [|done].
  destruct stage as [s|]; simpl in *; strings; try done.
  all: lazymatch goal with
       | |- context [h (json_loads ?x) ?w] =>
           pose proof (Hjson x w) as E; destruct (h (json_loads x) w) as [r w'];
           simpl in E; subst r; simpl
       end.
  all: destruct e; try done; by destruct (Hnot filename).
Qed.

(** X7: an exception of the application other than [FileNotFoundError]
    is not caught by [deploy], [destroy] and [sync]: the command raises it
    and prints nothing.  For [deploy] this holds with and without a
    configuration string, which [json.loads] is taken to accept. *)
Theorem app_error_leaves (project : option string) (location : string)
    (stage : option string) (skip_function only_function : bool)
    (config : option string) (force all dryrun : bool) (gconfig : GConfig) (app : App)
    (e : exn) (w : World X) :
  truthy project = true →
  (∀ s w', ∃ j, (h (json_loads s) w').1 = Return j) →
  (∀ w', (h GConfig_new w').1 = Return gconfig) →
  (∀ f w', (h (get_goblet_app f) w').1 = Return app) →
  (∀ c w', is_app_method c = true → (h c w').1 = Raised e) →
  (∀ fn, e ≠ FileNotFoundError fn) →
  let failed (out : Result unit * State X) :=
    out.1 = Raised e ∧ echoes (trace out.2) = [] in
  failed (run (deploy h project location stage skip_function only_function config
                 force) w)
  ∧ failed (run (destroy h project location stage all) w)
  ∧ failed (run (sync h project location stage dryrun) w).
Proof.
  intros Hp Hjson Hcfg Happ Herr Hnot failed. unfold failed. unfold_cli.
  unfold truthy in *.
  destruct project as [p|]; [|done].
  destruct stage as [s|]; simpl in *; strings; try done.
  all: destruct config as [c|]; simpl; strings.
  all: split_and!.
  all: try lazymatch goal with
           | |- context [h (json_loads ?x) ?w] =>
               let E := fresh "E" in
               let j := fresh "j" in
               let r := fresh "r" in
               let w1 := fresh "w" in
               destruct (Hjson x w) as [j E]; destruct (h (json_loads x) w) as [r w1];
               simpl in E; subst r; simpl
           end.
  all: answer Hcfg; answer (Happ (or_else (main_file gconfig) "main.py")).
  all: lazymatch goal with
       | |- context [h ?c ?w] =>
           pose proof (Herr c w eq_refl) as E; destruct (h c w) as [r w'];
           simpl in E; subst r; simpl
       end.
  all: destruct e; try done; by destruct (Hnot filename).
Qed.

(** X17: an exception of the application other than [FileNotFoundError]
    is not caught by [package] and [job run] either: the command raises it
    and prints nothing. *)
Theorem package_job_app_error_leaves (stage : option string) (name task_id : string)
    (index : Z) (config : GConfig) (app : App) (e : exn) (w : World X) :
  py_int task_id = Some index →
  (∀ w', (h GConfig_new w').1 = Return config) →
  (∀ f w', (h (get_goblet_app f) w').1 = Return app) →
  (∀ c w', is_app_method c = true → (h c w').1 = Raised e) →
  (∀ fn, e ≠ FileNotFoundError fn) →
  let failed (out : Result unit * State X) :=
    out.1 = Raised e ∧ echoes (trace out.2) = [] in
  failed (run (package h stage) w) ∧ failed (run (run_job h name task_id) w).
Proof.
  intros Hint Hcfg Happ Herr Hnot failed. unfold failed. unfold_cli. unfold truthy in *.
  rewrite Hint.
  destruct stage as [s|]; simpl in *; strings; try done.
  all: split_and!.
  all: answer Hcfg; answer (Happ (or_else (main_file config) "main.py")).
  all: lazymatch goal with
       | |- context [h ?c ?w] =>
           pose proof (Herr c w eq_refl) as E; destruct (h c w) as [r w'];
           simpl in E; subst r; simpl
       end.
  all: destruct e; try done; by destruct (Hnot filename).
Qed.
End Errors.

(** ** [stage create], twice *)

Section CreateTwice.
Context {X : Type} (h : handler X) (disk : X → GConfig) (app : App).
Hypothesis Hread : ∀ w, h GConfig_new w = (Return (disk (ext w)), w).
Hypothesis Hwrite : ∀ config w,
  (h (GConfig_write config) w).1 = Return tt
  ∧ disk (ext (h (GConfig_write config) w).2) = config.
Hypothesis Hload : ∀ f w,
  (h (get_goblet_app f) w).1 = Return app ∧ ext (h (get_goblet_app f) w).2 = ext w.

(** With a file that [GConfig()] reads and [config.write()] replaces,
    [stage create] of a new stage leaves the file with that stage added. *)
Lemma create_writes_file (stage : string) (w : World X) :
  default ∅ (stages (disk (ext w))) !! stage = None →
  let out := run (create h stage) w in
  out.1 = Return tt
  ∧ disk (ext (world out.2))
    = set_stages (disk (ext w))
        (<[stage := stage_entry app stage]> (default ∅ (stages (disk (ext w))))).
Proof.
  intros Hfresh.
  assert (stages_truthy (disk (ext w)) = false →
          default ∅ (stages (disk (ext w))) = ∅) as Hempty.
  { unfold stages_truthy. destruct (stages (disk (ext w))) as [m|]; simpl; [|done].
    intros Hm. by apply negb_false_iff, bool_decide_eq_true_1 in Hm. }
  set (target := set_stages (disk (ext w))
                   (<[stage := stage_entry app stage]> (default ∅ (stages (disk (ext w)))))).
  assert ((if negb (stages_truthy (disk (ext w)))
           then set_stages (disk (ext w)) {[stage := stage_entry app stage]}
           else set_stages (disk (ext w))
                  (<[stage := stage_entry app stage]> (default ∅ (stages (disk (ext w))))))
          = target) as Hwritten.
  { unfold target. destruct (stages_truthy (disk (ext w))); simpl; [done|].
    by rewrite Hempty, insert_empty. }
  unfold run, create, load_app, extern, echo, mbind, M_bind, bind.
  cbn [world trace]. rewrite Hread. cbn [world trace].
  rewrite stage_test, Hfresh. rewrite bool_decide_eq_false_2 by (by intros [? ?]).
  rewrite Hread. cbn [world trace].
  destruct (Hload (or_else (main_file (disk (ext w))) "main.py") w) as [Hl1 Hl2].
  destruct (h (get_goblet_app _) w) as [r1 w1]. cbn [fst snd] in *. subst r1.
  cbn [world trace]. fold (stage_entry app stage). rewrite Hwritten.
  destruct (Hwrite target w1) as [Hw1 Hw2].
  destruct (h (GConfig_write target) w1) as [r2 w2]. cbn [fst snd] in *. subst r2.
  simpl. done.
Qed.

(** X8: [stage create] does not overwrite.  With a configuration file that
    [GConfig()] reads and [config.write()] replaces, creating a new stage
    and then creating it again leaves the file as the first command wrote
    it: the second command writes nothing and says that the stage exists.
    Creating two different new stages leaves both in the file. *)
Theorem create_twice (stage other : string) (w : World X) :
  default ∅ (stages (disk (ext w))) !! stage = None →
  stage ≠ other →
  let old := default ∅ (stages (disk (ext w))) in
  let w1 := world (run (create h stage) w).2 in
  let again := run (create h stage) w1 in
  let next := run (create h other) w1 in
  stages (disk (ext w1)) = Some (<[stage := stage_entry app stage]> old)
  ∧ again.1 = Return tt
  ∧ writes (trace again.2) = []
  ∧ echoes (trace again.2) = ["stage " +:+ stage +:+ " already exists"]
  ∧ disk (ext (world again.2)) = disk (ext w1)
  ∧ (old !! other = None →
     stages (disk (ext (world next.2)))
     = Some (<[other := stage_entry app other]> (<[stage := stage_entry app stage]> old))).
Proof.
  intros Hfresh Hne old w1 again next.
  destruct (create_writes_file stage w Hfresh) as [_ Hfile]. fold w1 in Hfile.
  assert (stages (disk (ext w1)) = Some (<[stage := stage_entry app stage]> old)) as Hs.
  { by rewrite Hfile. }
  split_and!; [done|..].
  - unfold again, run, create, extern, echo, mbind, M_bind, bind.
    cbn [world trace]. rewrite Hread. cbn [world trace].
    rewrite stage_test, Hs. simpl. rewrite lookup_insert_eq.
    by rewrite bool_decide_eq_true_2.
  - unfold again, run, create, extern, echo, mbind, M_bind, bind.
    cbn [world trace]. rewrite Hread. cbn [world trace].
    rewrite stage_test, Hs. simpl. rewrite lookup_insert_eq.
    by rewrite bool_decide_eq_true_2.
  - unfold again, run, create, extern, echo, mbind, M_bind, bind.
    cbn [world trace]. rewrite Hread. cbn [world trace].
    rewrite stage_test, Hs. simpl. rewrite lookup_insert_eq.
    by rewrite bool_decide_eq_true_2.
  - unfold again, run, create, extern, echo, mbind, M_bind, bind.
    cbn [world trace]. rewrite Hread. cbn [world trace].
    rewrite stage_test, Hs. simpl. rewrite lookup_insert_eq.
    by rewrite bool_decide_eq_true_2.
  - intros Hother.
    assert (default ∅ (stages (disk (ext w1))) !! other = None) as Hfresh'.
    { rewrite Hs. simpl. by rewrite lookup_insert_ne. }
    destruct (create_writes_file other w1 Hfresh') as [_ Hfile']. fold next in Hfile'.
    rewrite Hfile'. simpl. by rewrite Hs.
Qed.
End CreateTwice.

(** [stage create prod] twice, and then [stage create test], from a file
    that has the stage [dev]. *)
Lemma create_twice_witness :
  let w1 := world (run (create (filed fn_app) "prod") (directory dev_config)).2 in
  let again := run (create (filed fn_app) "prod") w1 in
  again.1 = Return tt
  ∧ writes (trace again.2) = []
  ∧ echoes (trace again.2) = ["stage prod already exists"]
  ∧ ext (world again.2) = ext w1.
Proof.
  pose proof (create_twice (filed fn_app) id fn_app (λ _, eq_refl)
                (λ _ _, conj eq_refl eq_refl) (λ _ _, conj eq_refl eq_refl)
                "prod" "test" (directory dev_config)) as H.
  destruct H as (_ & H1 & H2 & H3 & H4 & _).
  - vm_compute. reflexivity.
  - discriminate.
  - split_and!; [exact H1 | exact H2 | exact H3 | exact H4].
Defined.

(** ** The error paths on concrete runs *)

(** [stage create dev] in a directory without [main.py]. *)
Lemma create_missing_entry_file_witness :
  let out := run (create (scripted no_entry_file) "dev") world0 in
  out.1 = Raised (FileNotFoundError (Some "/srv/app/main.py"))
  ∧ trace out.2 = [GConfig_new; GConfig_new; get_goblet_app "main.py"].
Proof.
  apply (create_missing_entry_file (scripted no_entry_file) "dev" world0 empty_config
           (λ f, Some (absolute f))).
  - reflexivity.
  - reflexivity.
  - reflexivity.
Defined.

(** [stage create dev] in a directory with [main.py] and no stage yet. *)
Lemma create_reports_after_write_witness :
  let out := run (create (scripted (ready empty_config)) "dev") world0 in
  echoes (trace out.2) = ["stage dev created in config.json with function name fn-dev"].
Proof.
  pose proof (create_reports_after_write (scripted (ready empty_config)) "dev" world0
                empty_config fn_app) as H.
  destruct H as (_ & H & _).
  - reflexivity.
  - reflexivity.
  - reflexivity.
  - apply H. reflexivity.
Defined.

(** [deploy -p proj -l us-central1 --config "{"], where [json.loads]
    raises. *)
Lemma deploy_invalid_config_witness :
  let out := run (deploy (failing (ValueError "not JSON")) (Some "proj") "us-central1" None
                    false false (Some "{") false) world0 in
  out.1 = Raised (ValueError "not JSON")
  ∧ from_load (trace out.2) = []
  ∧ app_calls (trace out.2) = []
  ∧ echoes (trace out.2) = []
  ∧ exports (trace out.2) = exported "proj" "us-central1" None.
Proof.
  apply (deploy_invalid_config (failing (ValueError "not JSON")) (Some "proj") "us-central1" None
           false false (Some "{") false (ValueError "not JSON") world0).
  - reflexivity.
  - reflexivity.
  - reflexivity.
  - discriminate.
Defined.

(** [deploy -p proj -l us-central1 --config-from-json-string "{}" --force]
    with an application whose methods raise. *)
Lemma app_error_leaves_witness :
  let out := run (deploy (app_failing (OtherError "HttpError" "403")) (Some "proj")
                    "us-central1" None false false (Some "{}") true) world0 in
  out.1 = Raised (OtherError "HttpError" "403") ∧ echoes (trace out.2) = [].
Proof.
  pose proof (app_error_leaves (app_failing (OtherError "HttpError" "403")) (Some "proj")
                "us-central1" None false false (Some "{}") true false false
                empty_config fn_app (OtherError "HttpError" "403") world0) as H.
  destruct H as (H & _).
  - reflexivity.
  - intros s' w'. by eexists.
  - reflexivity.
  - reflexivity.
  - intros c w' Hc. destruct c; first [discriminate Hc | reflexivity].
  - discriminate.
  - exact H.
Defined.

(** [job run nightly 3] with an application that raises. *)
Lemma package_job_app_error_leaves_witness :
  let out := run (run_job (failing (OtherError "HttpError" "403")) "nightly" "3") world0 in
  out.1 = Raised (OtherError "HttpError" "403") ∧ echoes (trace out.2) = [].
Proof.
  pose proof (package_job_app_error_leaves (failing (OtherError "HttpError" "403")) None
                "nightly" "3" 3 empty_config fn_app (OtherError "HttpError" "403")
                world0) as H.
  destruct H as (_ & H).
  - reflexivity.
  - reflexivity.
  - reflexivity.
  - intros c w' Hc. destruct c; first [discriminate Hc | reflexivity].
  - discriminate.
  - exact H.
Defined.

(** ** [openapi] and [local] *)

Section Further.
Context {X : Type} (h : handler X) (g : io_handler X).

Local Ltac unfold_io :=
  unfold run_io, openapi, local, try_catch, local_variable, lift, io, load_app, when,
    setenv, echo, extern, mbind, mret, IO_bind, IO_ret, M_bind, M_ret, io_bind, io_ret,
    io_raise, bind, ret, raise.

(** Use the answer [H] of a collaborator [f] to the pending call. *)
Local Ltac answers f H :=
  lazymatch goal with
  | |- context [f ?w] =>
      let E := fresh "E" in
      let r := fresh "r" in
      let w' := fresh "w" in
      pose proof (H w) as E; destruct (f w) as [r w']; simpl in E; subst r; simpl
  end.

Local Ltac stage_cases stage :=
  unfold truthy; destruct stage as [?s|]; simpl;
  repeat match goal with
    | |- context [String.eqb ?x ""] => destruct (String.eqb x "") eqn:?; simpl
    end.

(** X9: [openapi --version 3] in a directory without the entry file.  The
    missing file is reported under the name the exception carries, and the
    conversion that follows reads the variable [app], which the failed load
    has left unbound: the command
    ends in [UnboundLocalError] after it has asked for the directory, and
    reads, posts and writes nothing. *)
Theorem openapi_unbound_app (cloudfunction : string) (stage version : option string)
    (config : GConfig) (path : string → option string) (dir : string) (w : World X) :
  truthy version = true →
  (∀ w', (h GConfig_new w').1 = Return config) →
  (∀ f w', (h (get_goblet_app f) w').1 = Raised (FileNotFoundError (path f))) →
  (∀ w', (g get_g_dir w').1 = Return dir) →
  let out := run_io (openapi h g cloudfunction stage version) w in
  (∃ msg, out.1 = Raised (OtherError "UnboundLocalError" msg))
  ∧ echoes (core_calls (log out.2))
    = [missing (path (or_else (main_file config) "main.py"))]
  ∧ io_calls (log out.2) = [get_g_dir].
Proof.
  intros Hv Hcfg Hmissing Hdir. unfold_io. rewrite Hv. clear Hv.
  stage_cases stage.
  all: answers (h GConfig_new) Hcfg.
  all: answers (h (get_goblet_app (or_else (main_file config) "main.py")))
         (Hmissing (or_else (main_file config) "main.py")).
  all: answers (g get_g_dir) Hdir.
  all: split_and!; [by eexists|done..].
Qed.

Local Ltac class_cases :=
  repeat match goal with
    | |- context [String.eqb ?n "CalledProcessError"] =>
        destruct (String.eqb n "CalledProcessError"); simpl
    end.

(** Split on what a collaborator [f] answers to the pending call. *)
Local Ltac cases f :=
  lazymatch goal with
  | |- context [f ?w] =>
      let a := fresh "a" in
      let e := fresh "e" in
      let w' := fresh "w" in
      destruct (f w) as [[a|e] w'] eqn:?; simpl; [|destruct e; simpl]
  end.

(** X10: without [--version], [openapi] asks the route handler at most
    once, for the cloud function given, and makes no other call to the
    further collaborators: it reads no file, posts nothing and writes
    nothing; no [FileNotFoundError] leaves it. *)
Theorem openapi_without_version (cloudfunction : string) (stage version : option string)
    (w : World X) :
  truthy version = false →
  let out := run_io (openapi h g cloudfunction stage version) w in
  (io_calls (log out.2) = []
   ∨ ∃ app, io_calls (log out.2) = [generate_openapi_spec app cloudfunction])
  ∧ ∀ filename, out.1 ≠ Raised (FileNotFoundError filename).
Proof.
  intros Hv. unfold_io. rewrite Hv. clear Hv.
  stage_cases stage.
  all: cases (h GConfig_new); try (split; [by left|done]).
  all: lazymatch goal with
       | |- context [h (get_goblet_app ?f) ?w] => cases (h (get_goblet_app f))
       end; try (split; [by left|done]).
  all: lazymatch goal with
       | |- context [g (generate_openapi_spec ?a ?c) ?w] =>
           cases (g (generate_openapi_spec a c))
       end; split; first [by right; eexists | done].
Qed.

(** X11: [openapi --version 3] with the entry file in place.  Whether the
    route handler returns or raises [FileNotFoundError] (which is reported),
    the conversion goes on: the command reads
    [<dir>/<function_name>_openapi_spec.yml], posts what it has read to the
    converter, and writes the text of the response to
    [<dir>/<function_name>_openapi_spec_3.yml]. *)
Theorem openapi_converts (cloudfunction : string) (stage version : option string)
    (config : GConfig) (app : App) (generated : Result unit) (dir swagger : string)
    (convert : string → string) (w : World X) :
  truthy version = true →
  (∀ w', (h GConfig_new w').1 = Return config) →
  (∀ f w', (h (get_goblet_app f) w').1 = Return app) →
  (∀ w', (g (generate_openapi_spec app cloudfunction) w').1 = generated) →
  (∀ e, generated = Raised e → is_FileNotFoundError e = true) →
  (∀ w', (g get_g_dir w').1 = Return dir) →
  (∀ path w', (g (read_file path) w').1 = Return swagger) →
  (∀ data w', (g (requests_post converter yaml_headers data) w').1 = Return (convert data)) →
  (∀ path data w', (g (write_file path data) w').1 = Return tt) →
  let out := run_io (openapi h g cloudfunction stage version) w in
  out.1 = Return tt
  ∧ io_calls (log out.2)
    = [generate_openapi_spec app cloudfunction;
       get_g_dir;
       read_file (dir +:+ "/" +:+ function_name app +:+ "_openapi_spec.yml");
       requests_post converter yaml_headers swagger;
       get_g_dir;
       write_file (dir +:+ "/" +:+ function_name app +:+ "_openapi_spec_3.yml")
         (convert swagger)]
  ∧ echoes (core_calls (log out.2))
    = match generated with
      | Return _ => []
      | Raised not_found => [missing (filename_of not_found)]
      end.
Proof.
  intros Hv Hcfg Happ Hgen Hfnf Hdir Hread Hpost Hwrite. unfold_io. rewrite Hv. clear Hv.
  stage_cases stage.
  all: answers (h GConfig_new) Hcfg.
  all: answers (h (get_goblet_app (or_else (main_file config) "main.py")))
         (Happ (or_else (main_file config) "main.py")).
  all: answers (g (generate_openapi_spec app cloudfunction)) Hgen.
  all: destruct generated as [[]|e]; simpl; [|rewrite (Hfnf e eq_refl); simpl].
  all: answers (g get_g_dir) Hdir.
  all: lazymatch goal with
       | |- context [g (read_file ?p) ?w] => answers (g (read_file p)) (Hread p)
       end.
  all: answers (g (requests_post converter yaml_headers swagger)) (Hpost swagger).
  all: answers (g get_g_dir) Hdir.
  all: lazymatch goal with
       | |- context [g (write_file ?p ?t) ?w] => answers (g (write_file p t)) (Hwrite p t)
       end.
  all: done.
Qed.

Local Ltac no_write :=
  let Hin := fresh "Hin" in
  intros ? ? Hin; simpl in Hin; exfalso;
  repeat (apply elem_of_cons in Hin as [Hin|Hin]; [discriminate Hin|]);
  by apply elem_of_nil in Hin.

(** X12: whatever [openapi] writes is the text of a response of the
    converter, written to [<dir>/<function_name>_openapi_spec_3.yml] for
    the application loaded, and it is the last thing the command does:
    when a step of the conversion fails, nothing is written. *)
Theorem openapi_writes_converted (cloudfunction : string) (stage version : option string)
    (w : World X) (path text : string) :
  let out := run_io (openapi h g cloudfunction stage version) w in
  write_file path text ∈ io_calls (log out.2) →
  (∃ data w', (g (requests_post converter yaml_headers data) w').1 = Return text)
  ∧ (∃ f app dir w1 w2,
       (h (get_goblet_app f) w1).1 = Return app
       ∧ (g get_g_dir w2).1 = Return dir
       ∧ path = dir +:+ "/" +:+ function_name app +:+ "_openapi_spec_3.yml")
  ∧ last (log out.2) = Some (inr (write_file path text)).
Proof.
  revert path text. unfold_io.
  destruct (truthy version); stage_cases stage.
  all: cases (h GConfig_new); try no_write.
  all: try (lazymatch goal with
            | |- context [h (get_goblet_app ?f) ?w] =>
                destruct (h (get_goblet_app f) w) as [[app|e] w2] eqn:Happ; simpl;
                [|destruct e; simpl]
            end; try no_write).
  all: try (lazymatch goal with
            | |- context [g (generate_openapi_spec ?a ?c) ?w] =>
                cases (g (generate_openapi_spec a c))
            end; try no_write).
  all: try (cases (g get_g_dir); try no_write).
  all: try (lazymatch goal with
            | |- context [g (read_file ?p) ?w] => cases (g (read_file p))
            end; try no_write).
  all: try (lazymatch goal with
            | |- context [g (requests_post ?u ?hd ?d) ?w] =>
                destruct (g (requests_post u hd d) w) as [[response|e] w5] eqn:Hpost;
                simpl; [|destruct e; simpl]
            end; try no_write).
  all: try (lazymatch goal with
            | |- context [g get_g_dir ?w] =>
                destruct (g get_g_dir w) as [[dir|e] w6] eqn:Hdir; simpl;
                [|destruct e; simpl]
            end; try no_write).
  all: lazymatch goal with
       | |- context [g (write_file ?p ?t) ?w] => cases (g (write_file p t))
       end.
  all: intros path text Hin; simpl in Hin.
  all: repeat (apply elem_of_cons in Hin as [Hin|Hin]; [discriminate Hin|]).
  all: apply list_elem_of_singleton in Hin; injection Hin as -> ->.
  all: split_and!;
         [eexists _, _; by erewrite Hpost
         |eexists _, _, _, _, _; split_and!; [by erewrite Happ|by erewrite Hdir|done]
         |done].
Qed.

(** X13: [local] never loads the entry file: it reads the configuration
    and starts [functions-framework] at most once, on the target given and
    on the entry file the configuration names ([main.py] when it names
    none). *)
Theorem local_runs_framework (local_arg : string) (stage : option string) (w : World X) :
  let out := run_io (local h g local_arg stage) w in
  from_load (core_calls (log out.2)) = []
  ∧ (io_calls (log out.2) = []
     ∨ ∃ config w', (h GConfig_new w').1 = Return config
         ∧ io_calls (log out.2)
           = [check_output ["functions-framework"; "--target=" +:+ local_arg; "--debug";
                            "--source=" +:+ or_else (main_file config) "main.py"]]).
Proof.
  unfold_io. stage_cases stage.
  all: lazymatch goal with
       | |- context [h GConfig_new ?w] =>
           destruct (h GConfig_new w) as [[config|e] w'] eqn:Hcfg; simpl;
           [|destruct e; simpl]
       end; try (split; [done|by left]).
  all: try (class_cases; (split; [done|by left])).
  all: lazymatch goal with
       | |- context [g (check_output ?a) ?w] => cases (g (check_output a))
       end.
  all: class_cases.
  all: split; [done|]; right; eexists _, _; split; [by erewrite Hcfg|done].
Qed.

(** X14: of the exceptions of [functions-framework], [local] catches
    [CalledProcessError] alone: it is reported and the command returns.
    Any other exception leaves the command and nothing is printed; so does
    the [FileNotFoundError] of a missing executable, which the other
    commands would report. *)
Theorem local_errors (local_arg : string) (stage : option string) (config : GConfig)
    (e : exn) (w : World X) :
  (∀ w', (h GConfig_new w').1 = Return config) →
  (∀ argv w', (g (check_output argv) w').1 = Raised e) →
  let out := run_io (local h g local_arg stage) w in
  out.1 = (if is_CalledProcessError e then Return tt else Raised e)
  ∧ echoes (core_calls (log out.2))
    = (if is_CalledProcessError e then [incorrect_argument] else []).
Proof.
  intros Hcfg Hrun. unfold_io. stage_cases stage.
  all: answers (h GConfig_new) Hcfg.
  all: lazymatch goal with
       | |- context [g (check_output ?a) ?w] => answers (g (check_output a)) (Hrun a)
       end.
  all: destruct (is_CalledProcessError e); done.
Qed.
End Further.
(** ** [openapi] and [local] on concrete runs *)

(** [openapi fn --version 3] in a directory without [main.py]. *)
Lemma openapi_unbound_app_witness :
  let out := run_io (openapi (scripted no_entry_file)
                       (tools (Return tt) (Return tt) "swagger: 2.0" id)
                       "fn" None (Some "3")) world0 in
  (∃ msg, out.1 = Raised (OtherError "UnboundLocalError" msg))
  ∧ echoes (core_calls (log out.2)) = [missing (Some "/srv/app/main.py")]
  ∧ io_calls (log out.2) = [get_g_dir].
Proof.
  apply (openapi_unbound_app (scripted no_entry_file)
           (tools (Return tt) (Return tt) "swagger: 2.0" id)
           "fn" None (Some "3") empty_config (λ f, Some (absolute f)) ".goblet" world0).
  - reflexivity.
  - reflexivity.
  - reflexivity.
  - reflexivity.
Defined.

(** [openapi fn] without [--version]. *)
Lemma openapi_without_version_witness :
  let out := run_io (openapi (scripted (ready empty_config))
                       (tools (Return tt) (Return tt) "swagger: 2.0" id)
                       "fn" (Some "dev") None) world0 in
  (io_calls (log out.2) = []
   ∨ ∃ app, io_calls (log out.2) = [generate_openapi_spec app "fn"])
  ∧ ∀ filename, out.1 ≠ Raised (FileNotFoundError filename).
Proof.
  apply (openapi_without_version (scripted (ready empty_config))
           (tools (Return tt) (Return tt) "swagger: 2.0" id)
           "fn" (Some "dev") None world0).
  reflexivity.
Defined.

(** [openapi fn --version 3] where the route handler misses a file. *)
Lemma openapi_converts_witness :
  let out := run_io (openapi (scripted (ready empty_config))
                       (tools (Raised (FileNotFoundError (Some "schema.json"))) (Return tt)
                          "swagger: 2.0" (String.append "converted "))
                       "fn" None (Some "3")) world0 in
  out.1 = Return tt
  ∧ io_calls (log out.2)
    = [generate_openapi_spec fn_app "fn";
       get_g_dir;
       read_file ".goblet/fn_openapi_spec.yml";
       requests_post converter yaml_headers "swagger: 2.0";
       get_g_dir;
       write_file ".goblet/fn_openapi_spec_3.yml" "converted swagger: 2.0"]
  ∧ echoes (core_calls (log out.2)) = [missing (Some "schema.json")].
Proof.
  apply (openapi_converts (scripted (ready empty_config))
           (tools (Raised (FileNotFoundError (Some "schema.json"))) (Return tt)
              "swagger: 2.0" (String.append "converted "))
           "fn" None (Some "3") empty_config fn_app
           (Raised (FileNotFoundError (Some "schema.json"))) ".goblet" "swagger: 2.0"
           (String.append "converted ") world0).
  - reflexivity.
  - reflexivity.
  - reflexivity.
  - reflexivity.
  - intros e [= <-]. reflexivity.
  - reflexivity.
  - reflexivity.
  - reflexivity.
  - reflexivity.
Defined.

(** The file that [openapi fn --version 3] writes. *)
Lemma openapi_writes_converted_witness :
  let out := run_io (openapi (scripted (ready empty_config))
                       (tools (Return tt) (Return tt) "swagger: 2.0"
                          (String.append "converted "))
                       "fn" None (Some "3")) world0 in
  last (log out.2)
  = Some (inr (write_file ".goblet/fn_openapi_spec_3.yml" "converted swagger: 2.0")).
Proof.
  apply (openapi_writes_converted (scripted (ready empty_config))
           (tools (Return tt) (Return tt) "swagger: 2.0" (String.append "converted "))
           "fn" None (Some "3") world0
           ".goblet/fn_openapi_spec_3.yml" "converted swagger: 2.0").
  simpl. do 5 apply list_elem_of_further. apply list_elem_of_here.
Defined.

(** [local] where [functions-framework] ends with an error status. *)
Lemma local_errors_witness :
  let out := run_io (local (scripted (ready empty_config))
                       (tools (Return tt)
                          (Raised (OtherError "CalledProcessError" "exit status 1"))
                          "swagger: 2.0" id)
                       "local" None) world0 in
  out.1 = Return tt ∧ echoes (core_calls (log out.2)) = [incorrect_argument].
Proof.
  apply (local_errors (scripted (ready empty_config))
           (tools (Return tt) (Raised (OtherError "CalledProcessError" "exit status 1"))
              "swagger: 2.0" id)
           "local" None empty_config (OtherError "CalledProcessError" "exit status 1")
           world0).
  - reflexivity.
  - reflexivity.
Defined.
